(** * drl_api: the DQN learning core

    A shallow embedding of [drl_api/models/base_dqn.py] and
    [drl_api/agents/dqn_agent.py]: the linear epsilon scheduler [_eps], the
    two-network value model [DQN_Model] with its network class [_DQN], and
    the training / evaluation steps of [DQN_agent]; with them
    [get_env_specs] of [drl_api/envs/__init__.py] and of the agent.

    Conventions.
    - Python integers are [Z]; Python and tensor floats are idealised as
      rationals [Q] (no rounding, no NaN); Python's [max] and [%] are
      written out below.
    - A method is a computation in the state-and-exception monad [M]: it
      takes the object it is called on (together with the process-wide
      state [sys]) and returns an outcome and the updated state.  A raised
      exception keeps the state reached so far.
    - Tensor backend, environments and random number generators are
      collaborators: they are the fields of the class [Backend].
    - Console output ([print]) is not modelled.
    - Rationals do not round: what is proved about the order of values, or
      about the result of a single operation, carries over to floats; an
      equation between the results of several operations need not. *)

From Stdlib Require Import QArith Lqa.
From stdpp Require Import base option list gmap strings pretty.

Local Open Scope Z_scope.

(** ** Python values and control *)

(** [max(a, b)] keeps its first argument unless the second is strictly
    greater. *)
Definition py_max (a b : Q) : Q := if Qle_bool b a then a else b.

(** [a > b] on floats. *)
Definition Qgtb (a b : Q) : bool := negb (Qle_bool a b).

Inductive exn :=
  | ZeroDivisionError
  | IndexError
  | ValueError
  | AttributeError
  | RuntimeError
  | FileNotFoundError
  | InsufficientDataError
  | SystemExit (code : Z)
  | OutOfFuel.   (* not a Python exception: the loop bound of the model ran out *)

(** [a % b] on integers: floor modulo, [ZeroDivisionError] on [b = 0]. *)
Definition py_mod (a b : Z) : exn + Z :=
  if decide (b = 0) then inl ZeroDivisionError else inr (a `mod` b).

Inductive outcome (A : Type) :=
  | Ok (a : A)
  | Raise (e : exn).
Arguments Ok {A} a.
Arguments Raise {A} e.

(** State-and-exception monad over a state [S]. *)
Definition M (S A : Type) : Type := S → outcome A * S.

#[export] Instance M_ret {S} : MRet (M S) := λ A a s, (Ok a, s).
#[export] Instance M_bind {S} : MBind (M S) := λ A B f m s,
  match m s with
  | (Ok a, s') => f a s'
  | (Raise e, s') => (Raise e, s')
  end.

Definition raise {S A} (e : exn) : M S A := λ s, (Raise e, s).
Definition get {S} : M S S := λ s, (Ok s, s).
Definition gets {S A} (f : S → A) : M S A := λ s, (Ok (f s), s).
Definition modify {S} (f : S → S) : M S unit := λ s, (Ok tt, f s).
Definition of_sum {S A} (r : exn + A) : M S A :=
  match r with inl e => raise e | inr a => mret a end.
Definition of_option {S A} (e : exn) (o : option A) : M S A :=
  match o with None => raise e | Some a => mret a end.
Definition of_outcome {S A} (r : outcome A) : M S A := λ s, (r, s).

(** Run [m] on a component of the state, given by a getter and a setter. *)
Definition zoom {S T A} (proj : S → T) (inj : T → S → S) (m : M T A) : M S A :=
  λ s, let '(r, t) := m (proj s) in (r, inj t s).

(** ** Tensors and network layers *)

(** A tensor: its shape and its entries by flat index. *)
Record tensor := Tensor { shape : list nat; data : nat → Q }.

Definition tensor_fill (t : tensor) (v : Q) : tensor :=
  Tensor (shape t) (λ _, v).
Definition tensor_add (a b : tensor) : tensor :=
  Tensor (shape a) (λ i, data a i + data b i)%Q.

Inductive layer :=
  | Linear (in_features out_features : nat)
  | Conv2d (in_channels out_channels kernel_size stride : nat)
  | ReLU.

Inductive param_kind := Weight | Bias.

(** The parameters a layer registers when it sits at position [idx] of the
    [nn.Sequential] called [prefix]: name, shape, and whether it is the
    layer's [weight] or its [bias]. *)
Definition layer_params (prefix : string) (idx : nat) (l : layer)
    : list (string * list nat * param_kind) :=
  let base := prefix +:+ "." +:+ pretty idx in
  match l with
  | Linear i o =>
      [(base +:+ ".weight", [o; i], Weight); (base +:+ ".bias", [o], Bias)]
  | Conv2d i o k _ =>
      [(base +:+ ".weight", [o; i; k; k], Weight); (base +:+ ".bias", [o], Bias)]
  | ReLU => []
  end.

Definition sequential_params (prefix : string) (ls : list layer)
    : list (string * list nat * param_kind) :=
  concat (imap (layer_params prefix) ls).

Record transition := Transition {
  state : tensor;
  action : Z;
  reward : Q;
  next_state : tensor;
  terminal : bool
}.

(** ** Collaborators *)

Class Backend := {
  (** gym-style environment: [reset()] and [step(action)] *)
  env_state : Type;
  env_reset : env_state → tensor * env_state;
  env_step : env_state → Z → (tensor * Q * bool) * env_state;
  env_render : env_state → env_state;
  (** [Agent._format_img], defined in the base class *)
  _format_img : tensor → tensor;
  (** the [k]-th draw of [np.random.random()] / [np.random.uniform(0,1,1)] *)
  uniform : nat → Q;
  (** the [k]-th raw integer draw, reduced modulo the range by the caller *)
  randint : nat → Z;
  (** the entries of the [k]-th freshly drawn tensor of a shape (default
      and Xavier initialization) *)
  rand_data : nat → list nat → nat → Q;
  (** [nn.Sequential.__call__]: layers, parameter prefix, parameters, input;
      [None] when a layer rejects the shape of what it is given, which
      torch reports as a [RuntimeError] *)
  sequential : list layer → string → gmap string tensor → tensor → option tensor;
  (** [x.view(x.size(0), -1)]; [None] when there is no such view *)
  view_flat : tensor → option tensor;
  (** batching of observations ([np.expand_dims], [torch.tensor] of a list) *)
  stack : list tensor → tensor;
  (** a batch of action-value rows read off an output tensor *)
  rows : tensor → list (list Q);
  (** [loss.backward()]: from the discount, the parameters of the eval and
      of the target network and the batch, the gradients of the loss with
      respect to the parameters of either network *)
  backward : Q → gmap string tensor → gmap string tensor → list transition →
             gmap string tensor * gmap string tensor;
  (** one RMSprop update of a parameter: learning rate, running average
      (if any), parameter, gradient; new running average and parameter *)
  rmsprop : Q → option tensor → tensor → tensor → tensor * tensor;
  (** where [utils.save.save_model] writes: directory, environment, model *)
  save_path : string → string → string → string
}.

Definition rand_tensor `{Backend} (k : nat) (shp : list nat) : tensor :=
  Tensor shp (rand_data k shp).

(** ** The epsilon scheduler, class [_eps] *)

Module _eps.

Record t := mk { eps : Q; min_eps : Q; decay : Q }.

Definition __init__ (eps min_eps decay : Q) : t := mk eps min_eps decay.

(** get epsilon + decay: the stored value is updated first, and the updated
    value is what the call returns. *)
Definition get_eps : M t Q :=
  modify (λ self, mk (py_max (min_eps self) (eps self - decay self)%Q)
                     (min_eps self) (decay self));;
  gets eps.

Definition get_eps_no_decay : M t Q := gets eps.

Definition get_min_eps : M t Q := gets min_eps.

(** [n] successive calls of [get_eps]; the returned values in call order. *)
Fixpoint get_eps_n (n : nat) : M t (list Q) :=
  match n with
  | O => mret []
  | S n' => r ← get_eps; rs ← get_eps_n n'; mret (r :: rs)
  end.

End _eps.

(** ** The replay memory *)

Module ReplayMemory.

(** Modelled from the spec: [drl_api.memory.ReplayMemory] is not among the
    sources.  A fixed-capacity array of transition slots and a write counter
    that only grows; [push] writes slot [counter mod capacity] and increments
    the counter unconditionally; [size()] is [min(counter, capacity)];
    [sample] draws indices with replacement below [size()] and fails with
    [InsufficientDataError] on an empty memory. *)
Record t := mk { capacity : Z; counter : Z; slots : gmap Z transition }.

Definition __init__ (capacity : Z) : t := mk capacity 0 ∅.

Definition size (self : t) : Z := Z.min (counter self) (capacity self).

Definition push (tr : transition) : M t unit :=
  self ← get;
  i ← of_sum (py_mod (counter self) (capacity self));
  modify (λ self, mk (capacity self) (counter self + 1) (<[i := tr]> (slots self))).

(** The draws are numbers [seed], [seed + 1], ... of the generator. *)
Definition sample `{Backend} (seed : nat) (batch_size : Z) (self : t)
    : exn + list transition :=
  if decide (size self = 0) then inl InsufficientDataError
  else
    match mapM (λ k, slots self !! (randint (seed + k) `mod` size self))
               (seq 0 (Z.to_nat batch_size)) with
    | Some batch => inr batch
    | None => inl IndexError
    end.

End ReplayMemory.

(** ** The network class [_DQN] *)

Module _DQN.

(** The module tree ([conv], [fc]), the parameters by name, their gradient
    buffers, and the state of the RMSprop optimizer bound to them. *)
Record t := mk {
  in_dim : nat;
  out_dim : nat;
  fc_in_dim : nat;
  nntype : string;
  conv : list layer;
  fc : list layer;
  name : string;
  lr : Q;
  gpu : bool;
  params : gmap string tensor;
  grad : gmap string tensor;
  square_avg : gmap string tensor
}.

Definition set_params (v : gmap string tensor) (self : t) : t :=
  mk (in_dim self) (out_dim self) (fc_in_dim self) (nntype self) (conv self)
     (fc self) (name self) (lr self) (gpu self) v (grad self) (square_avg self).
Definition set_grad (v : gmap string tensor) (self : t) : t :=
  mk (in_dim self) (out_dim self) (fc_in_dim self) (nntype self) (conv self)
     (fc self) (name self) (lr self) (gpu self) (params self) v (square_avg self).
Definition set_square_avg (v : gmap string tensor) (self : t) : t :=
  mk (in_dim self) (out_dim self) (fc_in_dim self) (nntype self) (conv self)
     (fc self) (name self) (lr self) (gpu self) (params self) (grad self) v.

(** select architecture: the [conv] and [fc] stacks, or [exit(1)]. *)
Definition architecture (nntype : string) (in_dim out_dim fc_in_dim : nat)
    : exn + list layer * list layer :=
  if decide (nntype = "dense") then
    inr ([], [Linear in_dim 512; ReLU; Linear 512 512; ReLU; Linear 512 out_dim])
  else if decide (nntype = "conv") then
    inr ([Conv2d in_dim 32 8 4; ReLU; Conv2d 32 64 4 3; ReLU; Conv2d 64 128 3 1; ReLU],
         [Linear fc_in_dim 512; ReLU; Linear 512 out_dim])
  else inl (SystemExit 1).

Definition param_specs (conv fc : list layer) : list (string * list nat * param_kind) :=
  sequential_params "conv" conv ++ sequential_params "fc" fc.

(** The parameters as the layer constructors draw them: the [k]-th one from
    draw [seed + k]. *)
Definition fresh_params `{Backend} (seed : nat)
    (specs : list (string * list nat * param_kind)) : gmap string tensor :=
  list_to_map (imap (λ k '(key, shp, _), (key, rand_tensor (seed + k) shp)) specs).

Definition __init__ `{Backend} (seed : nat) (in_dim out_dim : nat) (lr : Q)
    (name nntype : string) (gpu : bool) : exn + t :=
  match architecture nntype in_dim out_dim 2048 with
  | inl e => inl e
  | inr (conv, fc) =>
      inr (mk in_dim out_dim 2048 nntype conv fc name lr gpu
              (fresh_params seed (param_specs conv fc)) ∅ ∅)
  end.

(** Xavier initialization of one module, as [self.apply(self.init_weights)]
    reaches it: the weight is redrawn in place, the bias filled with 0.01. *)
Definition init_weights `{Backend} (seed : nat) (self : t) : t :=
  set_params
    (foldr (λ '(k, (key, _, kind)) ps,
              match kind with
              | Weight => alter (λ w, rand_tensor (seed + k) (shape w)) key ps
              | Bias => alter (λ b, tensor_fill b 0.01%Q) key ps
              end)
           (params self)
           (imap (λ k spec, (k, spec)) (param_specs (conv self) (fc self))))
    self.

Definition state_dict (self : t) : gmap string tensor := params self.

(** What [load_state_dict] leaves in the parameters: a parameter whose name
    is in [sd] with a tensor of its own shape takes that tensor's values, the
    others stay. *)
Definition loaded_params (sd ps : gmap string tensor) : gmap string tensor :=
  map_imap (λ key p,
    Some match sd !! key with
         | Some v => if decide (shape v = shape p) then v else p
         | None => p
         end) ps.

(** [load_state_dict] is strict, and it is not atomic: it copies into every
    parameter that it can, and only then raises [RuntimeError] if a name was
    missing on either side or a tensor had another shape. *)
Definition load_state_dict (sd : gmap string tensor) : M t unit :=
  λ self,
    (if decide (shape <$> sd = shape <$> params self) then Ok tt
     else Raise RuntimeError,
     set_params (loaded_params sd (params self)) self).

(** The layers raise [RuntimeError] on an input that does not fit them. *)
Definition forward `{Backend} (x : tensor) (self : t) : exn + tensor :=
  if decide (nntype self = "dense") then
    match sequential (fc self) "fc" (params self) x with
    | Some qvals => inr qvals
    | None => inl RuntimeError
    end
  else if decide (nntype self = "conv") then
    match sequential (conv self) "conv" (params self) x with
    | Some x =>
        match view_flat x with
        | Some x =>
            match sequential (fc self) "fc" (params self) x with
            | Some qvals => inr qvals
            | None => inl RuntimeError
            end
        | None => inl RuntimeError
        end
    | None => inl RuntimeError
    end
  else inl (SystemExit 1).

Definition zero_grad (self : t) : t := set_grad ∅ self.

(** Gradients accumulate into the buffers. *)
Definition accumulate_grad (g : gmap string tensor) (self : t) : t :=
  set_grad (union_with (λ old new, Some (tensor_add old new)) (grad self) g) self.

(** [optimizer.step()]: every parameter that has a gradient is updated. *)
Definition optimizer_step `{Backend} (self : t) : t :=
  let upd :=
    map_imap (λ key p,
      Some match grad self !! key with
           | None => (square_avg self !! key, p)
           | Some g =>
               let '(sq, p') := rmsprop (lr self) (square_avg self !! key) p g in
               (Some sq, p')
           end) (params self) in
  set_square_avg (omap fst upd) (set_params (snd <$> upd) self).

Arguments fresh_params : simpl never.
Arguments param_specs : simpl never.
Arguments init_weights : simpl never.

End _DQN.

(** ** Process-wide state *)

(** What the claims observe of a run: every invocation of the model's
    [learn] (with the replay memory as it is at the call) and every
    checkpoint written.  The newest event comes first. *)
Inductive event :=
  | EvLearn (memory : ReplayMemory.t) (batch : list transition)
  | EvSave (path : string) (sd : gmap string tensor).

(** The position in the stream of random draws, the checkpoint files, and
    the trace of events. *)
Record sys := Sys {
  rng : nat;
  fs : gmap string (gmap string tensor);
  trace : list event
}.

Definition self_ {T} : M (T * sys) T := gets fst.
Definition set_self {T} (f : T → T) : M (T * sys) unit :=
  modify (λ '(o, g), (f o, g)).

(** The number of the next draw. *)
Definition seed_ {T} : M (T * sys) nat := gets (λ s, rng s.2).

(** Reserve [n] draws; the first of them is returned. *)
Definition draw {T} (n : nat) : M (T * sys) nat :=
  λ '(o, g), (Ok (rng g), (o, Sys (rng g + n) (fs g) (trace g))).

Definition emit {T} (ev : event) : M (T * sys) unit :=
  modify (λ '(o, g), (o, Sys (rng g) (fs g) (ev :: trace g))).

(** [torch.load(path)] *)
Definition torch_load {T} (path : string) : M (T * sys) (gmap string tensor) :=
  g ← gets snd; of_option FileNotFoundError (fs g !! path).

(** Modelled from the spec: [utils.save.save_model] is not among the
    sources; the persistence interface is
    [save(network_params, directory, env_name, model_name)]. *)
Definition save_model `{Backend} {T} (sd : gmap string tensor)
    (dir env_name model_name : string) : M (T * sys) unit :=
  let path := save_path dir env_name model_name in
  emit (EvSave path sd);;
  modify (λ '(o, g), (o, Sys (rng g) (<[path := sd]> (fs g)) (trace g))).

(** ** Tensor expressions of the learn step *)

(** [row[a]], with Python's negative indices. *)
Definition py_index {A} (row : list A) (a : Z) : exn + A :=
  let i := if decide (0 ≤ a) then a else Z.of_nat (length row) + a in
  if decide (0 ≤ i) then
    match row !! Z.to_nat i with Some x => inr x | None => inl IndexError end
  else inl IndexError.

(** [out[batch_index, action]]: the value of the action taken, per sample. *)
Fixpoint gather (out : list (list Q)) (actions : list Z) : exn + list Q :=
  match actions with
  | [] => inr []
  | a :: actions' =>
      match out with
      | [] => inl IndexError
      | row :: out' =>
          match py_index row a, gather out' actions' with
          | inr q, inr qs => inr (q :: qs)
          | inl e, _ => inl e
          | _, inl e => inl e
          end
      end
  end.

(** [q_next[terminal] = 0.0]: every row selected by the mask is zeroed. *)
Definition mask_rows (terminals : list bool) (q_next : list (list Q))
    : exn + list (list Q) :=
  if decide (length terminals = length q_next) then
    inr (zip_with (λ (t : bool) row, if t then (λ _, 0%Q) <$> row else row)
                  terminals q_next)
  else inl IndexError.

(** The largest entry of a row; an empty row has none. *)
Definition row_max (row : list Q) : exn + Q :=
  match row with
  | [] => inl RuntimeError
  | q :: row' => inr (foldl py_max q row')
  end.

(** [torch.max(q_next, dim=1)[0]] *)
Fixpoint max_dim1 (q_next : list (list Q)) : exn + list Q :=
  match q_next with
  | [] => inr []
  | row :: q_next' =>
      match row_max row, max_dim1 q_next' with
      | inr m, inr ms => inr (m :: ms)
      | inl e, _ => inl e
      | _, inl e => inl e
      end
  end.

(** [reward + gamma * torch.max(q_next, dim=1)[0]] *)
Definition bootstrap (gamma : Q) (rewards : list Q) (q_next : list (list Q))
    : exn + list Q :=
  match max_dim1 q_next with
  | inl e => inl e
  | inr ms =>
      if decide (length rewards = length ms) then
        inr (zip_with (λ r m, r + gamma * m)%Q rewards ms)
      else inl RuntimeError
  end.

(** The index of the first largest entry ([torch.argmax] of the flattened
    output). *)
Fixpoint argmax_from (best : Q) (ibest i : Z) (qs : list Q) : Z :=
  match qs with
  | [] => ibest
  | q :: qs' =>
      if Qgtb q best then argmax_from q i (i + 1) qs'
      else argmax_from best ibest (i + 1) qs'
  end.

Definition argmax (qs : list Q) : exn + Z :=
  match qs with
  | [] => inl RuntimeError
  | q :: qs' => inr (argmax_from q 0 1 qs')
  end.

(** ** The value model, class [DQN_Model] *)

Module DQN_Model.

(** The networks exist once [init_networks] has run. *)
Record t := mk {
  memory_size : Z;
  replay_memory : ReplayMemory.t;
  gamma : Q;
  n_actions : nat;
  in_dims : nat;
  eps : _eps.t;
  lr : Q;
  gpu : bool;
  nntype : string;
  name : string;
  done : bool;
  Q_eval : option _DQN.t;
  Q_target : option _DQN.t
}.

Definition set_replay_memory (v : ReplayMemory.t) (self : t) : t :=
  mk (memory_size self) v (gamma self) (n_actions self) (in_dims self)
     (eps self) (lr self) (gpu self) (nntype self) (name self) (done self)
     (Q_eval self) (Q_target self).
Definition set_eps (v : _eps.t) (self : t) : t :=
  mk (memory_size self) (replay_memory self) (gamma self) (n_actions self)
     (in_dims self) v (lr self) (gpu self) (nntype self) (name self)
     (done self) (Q_eval self) (Q_target self).
Definition set_done (v : bool) (self : t) : t :=
  mk (memory_size self) (replay_memory self) (gamma self) (n_actions self)
     (in_dims self) (eps self) (lr self) (gpu self) (nntype self) (name self)
     v (Q_eval self) (Q_target self).
Definition set_Q_eval (v : option _DQN.t) (self : t) : t :=
  mk (memory_size self) (replay_memory self) (gamma self) (n_actions self)
     (in_dims self) (eps self) (lr self) (gpu self) (nntype self) (name self)
     (done self) v (Q_target self).
Definition set_Q_target (v : option _DQN.t) (self : t) : t :=
  mk (memory_size self) (replay_memory self) (gamma self) (n_actions self)
     (in_dims self) (eps self) (lr self) (gpu self) (nntype self) (name self)
     (done self) (Q_eval self) v.

Definition __init__ (n_actions in_dims : nat) (eps gamma lr min_eps eps_decay : Q)
    (memory_size : Z) (gpu : bool) (nntype : string) : t :=
  mk memory_size (ReplayMemory.__init__ memory_size) gamma n_actions in_dims
     (_eps.__init__ eps min_eps eps_decay) lr gpu nntype "DQN" false None None.

(** [self.Q_eval], [self.Q_target]: an attribute that was never assigned
    raises. *)
Definition get_Q_eval : M (t * sys) _DQN.t :=
  self ← self_; of_option AttributeError (Q_eval self).
Definition get_Q_target : M (t * sys) _DQN.t :=
  self ← self_; of_option AttributeError (Q_target self).

(** A network is an object: what [load_state_dict] copied into it before it
    raised stays there. *)
Definition replace_target_network : M (t * sys) unit :=
  q_eval ← get_Q_eval;
  q_target ← get_Q_target;
  let '(r, q_target) := _DQN.load_state_dict (_DQN.state_dict q_eval) q_target in
  set_self (set_Q_target (Some q_target));;
  of_outcome r.

(** Called by the agent prior to doing anything.  Moving the networks to
    their device changes nothing here. *)
Definition init_networks `{Backend} : M (t * sys) unit :=
  self ← self_;
  seed ← seed_;
  q_eval ← of_sum (_DQN.__init__ seed (in_dims self) (n_actions self) (lr self)
                                 "eval" (nntype self) (gpu self));
  draw (length (_DQN.param_specs (_DQN.conv q_eval) (_DQN.fc q_eval)));;
  set_self (set_Q_eval (Some q_eval));;
  seed ← seed_;
  q_target ← of_sum (_DQN.__init__ seed (in_dims self) (n_actions self) (lr self)
                                   "target" (nntype self) (gpu self));
  draw (length (_DQN.param_specs (_DQN.conv q_target) (_DQN.fc q_target)));;
  set_self (set_Q_target (Some q_target));;
  (* initialize weights *)
  seed ← draw (length (_DQN.param_specs (_DQN.conv q_eval) (_DQN.fc q_eval)));
  set_self (set_Q_eval (Some (_DQN.init_weights seed q_eval)));;
  (* setup eval-target networks *)
  replace_target_network.

(** Modelled from the spec: [process_batch] belongs to the base class
    [drl_api.models.Model], which is not among the sources; a batch is
    handed on as one array per field. *)
Definition process_batch (batch : list transition)
    : list tensor * list Z * list Q * list tensor * list bool :=
  (state <$> batch, action <$> batch, reward <$> batch,
   next_state <$> batch, terminal <$> batch).

(** The bootstrap target of a batch, from the action values [q_next] that
    the target network gave for the next states. *)
Definition q_target_of (gamma : Q) (rewards : list Q) (terminals : list bool)
    (q_next : list (list Q)) : exn + list Q :=
  match mask_rows terminals q_next with
  | inl e => inl e
  | inr q_next => bootstrap gamma rewards q_next
  end.

(** basic DQN learn.  The loss enters through its gradients only. *)
Definition learn `{Backend} (batch : list transition) : M (t * sys) unit :=
  self ← self_;
  emit (EvLearn (replay_memory self) batch);;
  q_eval_net ← get_Q_eval;
  let q_eval_net := _DQN.zero_grad q_eval_net in
  set_self (set_Q_eval (Some q_eval_net));;
  let '(states, actions, rewards, next_states, terminals) := process_batch batch in
  (* dqn step *)
  out ← of_sum (_DQN.forward (stack states) q_eval_net);
  q_eval ← of_sum (gather (rows out) actions);
  q_target_net ← get_Q_target;
  out ← of_sum (_DQN.forward (stack next_states) q_target_net);
  q_target ← of_sum (q_target_of (gamma self) rewards terminals (rows out));
  (* loss.backward() *)
  let '(g_eval, g_target) :=
    backward (gamma self) (_DQN.params q_eval_net) (_DQN.params q_target_net)
             batch in
  let q_eval_net := _DQN.accumulate_grad g_eval q_eval_net in
  set_self (set_Q_eval (Some q_eval_net));;
  set_self (set_Q_target (Some (_DQN.accumulate_grad g_target q_target_net)));;
  (* self.Q_eval.optimizer.step() *)
  set_self (set_Q_eval (Some (_DQN.optimizer_step q_eval_net))).

(** passes action through net and do some argmax thingies *)
Definition get_action `{Backend} (state : tensor) : M (t * sys) Z :=
  q_eval_net ← get_Q_eval;
  q_vals ← of_sum (_DQN.forward state q_eval_net);
  of_sum (argmax (concat (rows q_vals))).

Definition load_save (path : string) : M (t * sys) unit :=
  q_eval ← get_Q_eval;
  sd ← torch_load path;
  let '(r, q_eval) := _DQN.load_state_dict sd q_eval in
  set_self (set_Q_eval (Some q_eval));;
  of_outcome r;;
  q_target ← get_Q_target;
  sd ← torch_load path;
  let '(r, q_target) := _DQN.load_state_dict sd q_target in
  set_self (set_Q_target (Some q_target));;
  of_outcome r.

(** Sample from replay memory *)
Definition sample `{Backend} (batch_size : Z) : M (t * sys) (list transition) :=
  self ← self_;
  seed ← draw (Z.to_nat batch_size);
  of_sum (ReplayMemory.sample seed batch_size (replay_memory self)).

Definition get_counter : M (t * sys) Z :=
  self ← self_; mret (ReplayMemory.counter (replay_memory self)).

Definition store_transition (tr : transition) : M (t * sys) unit :=
  zoom (λ '(self, _), replay_memory self)
       (λ rm '(self, g), (set_replay_memory rm self, g))
       (ReplayMemory.push tr).

End DQN_Model.

(** ** The agent, class [DQN_agent] *)

Module DQN_agent.

Section agent.
Context `{Backend}.

(** [model], [env_train], [env_name] and [agent_step] are set up by the base
    class [Agent]. *)
Record t := mk {
  model : DQN_Model.t;
  env_train : env_state;
  env_name : string;
  agent_step : Z;
  batch_size : Z;
  target_update : Z;
  learn_frequency : Z;
  scores : list Q;
  avg_scores : list Q;
  eps_history : list Q;
  max_avg_score : Q
}.

Definition set_model (v : DQN_Model.t) (self : t) : t :=
  mk v (env_train self) (env_name self) (agent_step self) (batch_size self)
     (target_update self) (learn_frequency self) (scores self)
     (avg_scores self) (eps_history self) (max_avg_score self).
Definition set_env_train (v : env_state) (self : t) : t :=
  mk (model self) v (env_name self) (agent_step self) (batch_size self)
     (target_update self) (learn_frequency self) (scores self)
     (avg_scores self) (eps_history self) (max_avg_score self).
Definition set_agent_step (v : Z) (self : t) : t :=
  mk (model self) (env_train self) (env_name self) v (batch_size self)
     (target_update self) (learn_frequency self) (scores self)
     (avg_scores self) (eps_history self) (max_avg_score self).
Definition set_scores (v : list Q) (self : t) : t :=
  mk (model self) (env_train self) (env_name self) (agent_step self)
     (batch_size self) (target_update self) (learn_frequency self) v
     (avg_scores self) (eps_history self) (max_avg_score self).
Definition set_avg_scores (v : list Q) (self : t) : t :=
  mk (model self) (env_train self) (env_name self) (agent_step self)
     (batch_size self) (target_update self) (learn_frequency self)
     (scores self) v (eps_history self) (max_avg_score self).
Definition set_eps_history (v : list Q) (self : t) : t :=
  mk (model self) (env_train self) (env_name self) (agent_step self)
     (batch_size self) (target_update self) (learn_frequency self)
     (scores self) (avg_scores self) v (max_avg_score self).
Definition set_max_avg_score (v : Q) (self : t) : t :=
  mk (model self) (env_train self) (env_name self) (agent_step self)
     (batch_size self) (target_update self) (learn_frequency self)
     (scores self) (avg_scores self) (eps_history self) v.

(** A call of a method of [self.model]. *)
Definition on_model {A} (m : M (DQN_Model.t * sys) A) : M (t * sys) A :=
  zoom (λ '(self, g), (model self, g))
       (λ '(mdl, g) '(self, _), (set_model mdl self, g)) m.

(** A call of a method of [self.model.eps]. *)
Definition on_eps {A} (m : M _eps.t A) : M (t * sys) A :=
  on_model (zoom (λ '(mdl, _), DQN_Model.eps mdl)
                 (λ e '(mdl, g), (DQN_Model.set_eps e mdl, g)) m).

(** The part of [__init__] that follows the call of the base class's
    constructor. *)
Definition __init__ (target_update batch_size learn_frequency : Z)
    : M (t * sys) unit :=
  set_self (λ self,
    mk (model self) (env_train self) (env_name self) (agent_step self)
       batch_size target_update learn_frequency [] [] [] (max_avg_score self));;
  (* initialize neural networks *)
  on_model DQN_Model.init_networks;;
  set_self (set_max_avg_score 0%Q).

(** [np.random.choice(n)] *)
Definition random_choice (n : nat) : M (t * sys) Z :=
  if decide (n = 0%nat) then raise ValueError
  else k ← draw 1; mret (randint k `mod` Z.of_nat n).

(** agent learns, determined by agent's model *)
Definition learn (batch : list transition) : M (t * sys) unit :=
  on_model (DQN_Model.learn batch).

(** Choose an action at training time *)
Definition act_train (state : tensor) : M (t * sys) Z :=
  k ← draw 1;
  e ← on_eps _eps.get_eps;
  if Qgtb (uniform k) e then on_model (DQN_Model.get_action (stack [state]))
  else self ← self_; random_choice (DQN_Model.n_actions (model self)).

(** Choose an action at evaluation time *)
Definition act_eval (state : tensor) : M (t * sys) Z :=
  k ← draw 1;
  e ← on_eps _eps.get_min_eps;
  if Qgtb (uniform k) e then on_model (DQN_Model.get_action (stack [state]))
  else self ← self_; random_choice (DQN_Model.n_actions (model self)).

(** The [while not done] loop of [train_step], cut off after [fuel]
    iterations. *)
Fixpoint train_loop (render : bool) (fuel : nat) (score : Q) (obs : tensor)
    : M (t * sys) Q :=
  match fuel with
  | O => raise OutOfFuel
  | S fuel' =>
      (if render
       then set_self (λ self, set_env_train (env_render (env_train self)) self)
       else mret tt);;
      (* get action *)
      action ← act_train obs;
      (* run action *)
      self ← self_;
      let '(obs_, reward, done, env') := env_step (env_train self) action in
      set_self (set_env_train env');;
      let obs_ := _format_img obs_ in
      (* save score *)
      let score := (score + reward)%Q in
      (* store transition in replay buffer *)
      on_model (DQN_Model.store_transition (Transition obs action reward obs_ done));;
      (* learn something *)
      counter ← on_model DQN_Model.get_counter;
      self ← self_;
      go ← (if bool_decide (counter > batch_size self)
            then r ← of_sum (py_mod (agent_step self) (learn_frequency self));
                 mret (bool_decide (r = 0))
            else mret false);
      (if go : bool then
         (* feed in a random batch *)
         random_batch ← on_model (DQN_Model.sample (batch_size self));
         learn random_batch
       else mret tt);;
      (* update agent step counter *)
      set_self (λ self, set_agent_step (agent_step self + 1) self);;
      (* update target network *)
      self ← self_;
      r ← of_sum (py_mod (agent_step self) (target_update self));
      (if bool_decide (r = 0) then on_model DQN_Model.replace_target_network
       else mret tt);;
      if done : bool then mret score else train_loop render fuel' score obs_
  end.

(** Sample a 1-episode trajectory and learn simultaneously *)
Definition train_step (render : bool) (fuel : nat) : M (t * sys) Q :=
  self ← self_;
  let '(obs, env') := env_reset (env_train self) in
  set_self (set_env_train env');;
  let obs := _format_img obs in
  on_model (set_self (DQN_Model.set_done false));;
  score ← train_loop render fuel 0%Q obs;
  on_model (set_self (DQN_Model.set_done true));;
  mret score.

(** evaluate model over # rounds, if best then save.  [avg_score] is what
    [self.play(rounds=rounds)] returned; [play] is a method of the base
    class [Agent], and the state is the one it left. *)
Definition eval_step (avg_score : Q) : M (t * sys) unit :=
  self ← self_;
  if Qgtb avg_score (max_avg_score self) then
    set_self (set_max_avg_score avg_score);;
    q_eval ← on_model DQN_Model.get_Q_eval;
    save_model (_DQN.state_dict q_eval) "drl_api/saves" (env_name self)
               (DQN_Model.name (model self))
  else mret tt.

Definition load_save (path : string) : M (t * sys) unit :=
  on_model (DQN_Model.load_save path).

(** [np.mean(l)] of a list that is not empty. *)
Definition np_mean (l : list Q) : Q :=
  (foldr Qplus 0 l / inject_Z (Z.of_nat (length l)))%Q.

(** [l[-n:]] *)
Definition py_last {A} (n : nat) (l : list A) : list A :=
  drop (length l - n) l.

(** One pass of the [for episode] loop of [train], up to the evaluation that
    every 50th pass ends with: the epsilon of the moment is logged, an
    episode is run, its score and the mean of the last 100 scores are
    logged.  ([self.eval_scores], which [train] assigns and nothing reads,
    is no field here.) *)
Definition train_episode (render : bool) (fuel : nat) : M (t * sys) Q :=
  e ← on_eps _eps.get_eps_no_decay;
  set_self (λ self, set_eps_history (eps_history self ++ [e]) self);;
  score ← train_step render fuel;
  set_self (λ self, set_scores (scores self ++ [score]) self);;
  self ← self_;
  let avg_score := np_mean (py_last 100 (scores self)) in
  set_self (λ self, set_avg_scores (avg_scores self ++ [avg_score]) self);;
  mret score.

(** Modelled from the spec: [play] is a method of the base class [Agent],
    which is not among the sources.  It runs full episodes of the evaluation
    environment and chooses every action of them with [act_eval];
    [make_env] hands out one environment object as [env_train] and
    [env_eval] alike for bsuite, so the environment of the agent may move
    with it.  [played s s']: [play], called in [s], can leave [s']. *)
Inductive played : t * sys → t * sys → Prop :=
  | played_done s : played s s
  | played_act state s s' : played (act_eval state s).2 s' → played s s'
  | played_env env s s' : played (set_env_train env s.1, s.2) s' → played s s'.

End agent.

End DQN_agent.

(** ** Runs of an agent *)

(** The states an agent goes through once its constructor has returned
    [s0]: training episodes, alone or with the bookkeeping of [train] around
    them, evaluations ([play], then what [eval_step] does with its result)
    and checkpoint loads in any order, whether they return or raise.  The
    states in which [train] has [eval_step] compare the scores are among
    them: [train] gets there by steps [run_train_episode], [run_play] and
    [run_eval_step]. *)
Inductive run `{Backend} (s0 : DQN_agent.t * sys) : DQN_agent.t * sys → Prop :=
  | run_init : run s0 s0
  | run_train_step render fuel s :
      run s0 s → run s0 (DQN_agent.train_step render fuel s).2
  | run_eval_step avg_score s : run s0 s → run s0 (DQN_agent.eval_step avg_score s).2
  | run_load_save path s : run s0 s → run s0 (DQN_agent.load_save path s).2
  | run_train_episode render fuel s :
      run s0 s → run s0 (DQN_agent.train_episode render fuel s).2
  | run_play s s' : run s0 s → DQN_agent.played s s' → run s0 s'.

(** ** A small instance *)

(** Episodes of three steps with reward 1; networks that return the action
    values 0 and 1 for every sample; an optimizer that leaves the parameters
    where they are. *)
Definition toy_obs : tensor := Tensor [1%nat] (λ _, 0%Q).

#[export] Instance toy_backend : Backend := {|
  env_state := nat;
  env_reset := λ _, (toy_obs, 0%nat);
  env_step := λ n _, ((toy_obs, 1%Q, bool_decide (2 ≤ n)%nat), S n);
  env_render := λ n, n;
  _format_img := λ x, x;
  uniform := λ _, 0%Q;
  randint := λ k, Z.of_nat k;
  rand_data := λ k _ _, inject_Z (Z.of_nat k);
  sequential := λ _ _ _ x, Some x;
  view_flat := λ x, Some x;
  stack := λ l, Tensor [length l] (λ _, 0%Q);
  rows := λ x, replicate (hd 0%nat (shape x)) [0%Q; 1%Q];
  backward := λ _ _ _ _, (∅, ∅);
  rmsprop := λ _ _ p _, (p, p);
  save_path := λ dir env_name model_name,
    dir +:+ "/" +:+ env_name +:+ "-" +:+ model_name
|}.

(** A dense model on two actions whose replay memory has [memory_size]
    slots. *)
Definition toy_model (memory_size : Z) : DQN_Model.t :=
  DQN_Model.__init__ 2 1 1%Q 0.99%Q 0.001%Q 0.1%Q 0.1%Q memory_size false "dense".

(** An agent as the base class's constructor leaves it. *)
Definition toy_agent_base (memory_size : Z) : DQN_agent.t * sys :=
  (DQN_agent.mk (toy_model memory_size) 0%nat "toy" 0 0 0 0 [] [] [] 0%Q,
   Sys 0 ∅ []).

(** An agent as its own constructor leaves it, with [target_update = 4],
    [batch_size = 2] and [learn_frequency = 1]. *)
Definition toy_agent (memory_size : Z) : outcome unit * (DQN_agent.t * sys) :=
  DQN_agent.__init__ 4 2 1 (toy_agent_base memory_size).

(** The state in which the first pass of [train] has [eval_step] compare the
    scores: an episode with its bookkeeping, then [play] (here with one
    action chosen). *)
Definition toy_first_evaluation : DQN_agent.t * sys :=
  (DQN_agent.act_eval toy_obs
     (DQN_agent.train_episode false 3 (toy_agent 2).2).2).2.

Definition toy_batch : list transition :=
  [Transition toy_obs 0 1%Q toy_obs true; Transition toy_obs 1 2%Q toy_obs false].

(** The dense network on one input and two actions whose parameters are
    the draws from [seed] on. *)
Definition toy_net (name : string) (seed : nat) : _DQN.t :=
  let fc := [Linear 1 512; ReLU; Linear 512 512; ReLU; Linear 512 2] in
  _DQN.mk 1 2 2048 "dense" [] fc name 0.001%Q false
          (_DQN.fresh_params seed (_DQN.param_specs [] fc)) ∅ ∅.

(** A model with both networks in place, not synchronized. *)
Definition toy_model_with_networks : DQN_Model.t :=
  DQN_Model.set_Q_target (Some (toy_net "target" 6))
    (DQN_Model.set_Q_eval (Some (toy_net "eval" 0)) (toy_model 100)).

(** A file system with one checkpoint. *)
Definition toy_sys_with_checkpoint : sys :=
  Sys 0 {[ "drl_api/saves/toy-DQN" := _DQN.params (toy_net "saved" 40) ]} [].

Definition toy_agent_with_networks : DQN_agent.t :=
  DQN_agent.mk toy_model_with_networks 0%nat "toy" 0 2 4 1 [] [] [] 0%Q.

(** ** Assertions about runs *)

(** [hoare P m Q E]: from a state in [P], [m] ends in [Q] when it returns
    and in [E] when it raises. *)
Definition hoare {S A} (P : S → Prop) (m : M S A) (Q : A → S → Prop)
    (E : S → Prop) : Prop :=
  ∀ s, P s → match m s with (Ok a, s') => Q a s' | (Raise _, s') => E s' end.

(** [m] keeps [I], whether it returns or raises. *)
Definition keeps {S A} (I : S → Prop) (m : M S A) : Prop :=
  hoare I m (λ _, I) I.

(** The best-score record is not negative. *)
Definition best_nonneg `{Backend} (s : DQN_agent.t * sys) : Prop :=
  (0 <= DQN_agent.max_avg_score s.1)%Q.

(** A [learn] call made with more than [b] transitions counted. *)
Definition learn_gate (b : Z) (ev : event) : Prop :=
  match ev with
  | EvLearn mem _ => (ReplayMemory.counter mem > b)%Z
  | EvSave _ _ => True
  end.

(** Since [tr0], the batch size has been [b] and every [learn] call passed
    the gate. *)
Definition gated `{Backend} (b : Z) (tr0 : list event)
    (s : DQN_agent.t * sys) : Prop :=
  DQN_agent.batch_size s.1 = b ∧
  ∃ new, trace s.2 = new ++ tr0 ∧ Forall (learn_gate b) new.

Definition gated_at `{Backend} (b : Z) (tr0 : list event) (c : Z)
    (s : DQN_agent.t * sys) : Prop :=
  ReplayMemory.counter (DQN_Model.replay_memory (DQN_agent.model s.1)) = c ∧
  gated b tr0 s.

(** Methods of the model that leave the trace and the replay memory. *)
Definition quiet {A} (m : M (DQN_Model.t * sys) A) : Prop :=
  ∀ mdl g, trace (m (mdl, g)).2.2 = trace g ∧
           DQN_Model.replay_memory (m (mdl, g)).2.1 = DQN_Model.replay_memory mdl.

(** Symbolic execution of a method body that has no loop. *)
Ltac mrun :=
  repeat first
    [ progress cbv [mbind M_bind mret M_ret gets get modify raise of_sum
                    of_option zoom self_ seed_ set_self emit draw torch_load]
    | progress simpl
    | case_match; simplify_eq; simpl in * ].

Ltac quiet_run :=
  intros mdl g; mrun; done.

(** ** Assertions about training episodes *)

(** The fields of the agent that an episode has no business with. *)
Definition settings `{Backend} (a : DQN_agent.t)
    : string * Z * Z * Z * list Q * list Q * list Q * Q :=
  (DQN_agent.env_name a, DQN_agent.batch_size a, DQN_agent.target_update a,
   DQN_agent.learn_frequency a, DQN_agent.scores a, DQN_agent.avg_scores a,
   DQN_agent.eps_history a, DQN_agent.max_avg_score a).

(** The target period is 0 and the step counter is [st0]. *)
Definition stuck_at `{Backend} (st0 : Z) (s : DQN_agent.t * sys) : Prop :=
  DQN_agent.target_update s.1 = 0%Z ∧ DQN_agent.agent_step s.1 = st0.

(** The learn frequency is 0, the batch size is [b] and the trace is [tr]. *)
Definition never_learning `{Backend} (b : Z) (tr : list event)
    (s : DQN_agent.t * sys) : Prop :=
  DQN_agent.learn_frequency s.1 = 0%Z ∧ DQN_agent.batch_size s.1 = b ∧
  trace s.2 = tr.

Definition below_gate `{Backend} (b : Z) (tr : list event)
    (s : DQN_agent.t * sys) : Prop :=
  (ReplayMemory.counter (DQN_Model.replay_memory (DQN_agent.model s.1)) ≤ b)%Z ∧
  never_learning b tr s.

(** The scheduler after [k] calls of [get_eps]. *)
Definition decayed (k : nat) (e : _eps.t) : _eps.t := (_eps.get_eps_n k e).2.

Definition is_learn (ev : event) : Prop :=
  match ev with EvLearn _ _ => True | EvSave _ _ => False end.

(** The files are [F], and what was added to the trace [tr0] are calls of
    [learn]. *)
Definition only_learns `{Backend} (F : gmap string (gmap string tensor))
    (tr0 : list event) (s : DQN_agent.t * sys) : Prop :=
  fs s.2 = F ∧ ∃ new, trace s.2 = new ++ tr0 ∧ Forall is_learn new.

(** Since the agent was [a0], the step counter has advanced by [ka], the
    scheduler by [kb] calls and the write counter of the memory by [kc]. *)
Definition advanced `{Backend} (a0 : DQN_agent.t) (ka kb kc : nat)
    (s : DQN_agent.t * sys) : Prop :=
  DQN_agent.agent_step s.1 = (DQN_agent.agent_step a0 + Z.of_nat ka)%Z ∧
  DQN_Model.eps (DQN_agent.model s.1) =
    decayed kb (DQN_Model.eps (DQN_agent.model a0)) ∧
  ReplayMemory.counter (DQN_Model.replay_memory (DQN_agent.model s.1)) =
    (ReplayMemory.counter (DQN_Model.replay_memory (DQN_agent.model a0))
     + Z.of_nat kc)%Z.

Definition walking `{Backend} (F : gmap string (gmap string tensor))
    (tr0 : list event) (a0 : DQN_agent.t) (ka kb kc : nat)
    (s : DQN_agent.t * sys) : Prop :=
  only_learns F tr0 s ∧ advanced a0 ka kb kc s.

(** Methods of the model that leave scheduler, replay memory, files and
    trace. *)
Definition still {A} (m : M (DQN_Model.t * sys) A) : Prop :=
  ∀ mdl g,
    DQN_Model.eps (m (mdl, g)).2.1 = DQN_Model.eps mdl ∧
    DQN_Model.replay_memory (m (mdl, g)).2.1 = DQN_Model.replay_memory mdl ∧
    fs (m (mdl, g)).2.2 = fs g ∧ trace (m (mdl, g)).2.2 = trace g.

Ltac still_run := intros mdl g; mrun; done.

(** [hoare_exn P m Q E]: as [hoare], with the exception that was raised in
    [E]. *)
Definition hoare_exn {S A} (P : S → Prop) (m : M S A) (Q : A → S → Prop)
    (E : exn → S → Prop) : Prop :=
  ∀ s, P s → match m s with (Ok a, s') => Q a s' | (Raise e, s') => E e s' end.

(** [OutOfFuel] stands for a loop that was cut off; no statement of the
    code raises it. *)
Definition fuel_free {A} (r : exn + A) : Prop := r ≠ inl OutOfFuel.

Definition in_time {S A} (m : M S A) : Prop :=
  ∀ s, (m s).1 ≠ Raise OutOfFuel.

(** The name of a parameter of an architecture. *)
Definition spec_key (spec : string * list nat * param_kind) : string := spec.1.1.

(** ** Environment specs *)

(** The element types the code tells apart ([np.uint8] / [torch.uint8] and
    [np.float32] / [torch.float32]). *)
Inductive dtype := uint8 | float32.

(** What the specs functions read off a gym environment:
    [env.action_space.n] and [env.observation_space.shape]. *)
Record gym_env := GymEnv {
  action_space_n : Z;
  observation_space_shape : list Z
}.

(** A failed [assert], or one of the exceptions above. *)
Inductive specs_exn :=
  | AssertionError
  | Builtin (e : exn).

Module envs.

Record env_specs := mk {
  obs_shape : list Z;
  obs_dtype : dtype;
  obs_len : Z;
  n_actions : Z;
  in_dims : Z
}.

(** gets env parameters *)
Definition get_env_specs (env : gym_env) (stack_frames : Z)
    : specs_exn + env_specs :=
  let n_actions := action_space_n env in
  let obs_shape := observation_space_shape env in
  if decide (length obs_shape = 3%nat) then           (* atari *)
    if decide (stack_frames > 1)%Z then
      match py_index obs_shape 2 with
      | inl e => inl (Builtin e)
      | inr in_dims => inr (mk obs_shape uint8 stack_frames n_actions in_dims)
      end
    else inl AssertionError
  else                                                 (* bsuite *)
    match py_index obs_shape 0 with
    | inl e => inl (Builtin e)
    | inr d0 =>
        match py_index obs_shape 1 with
        | inl e => inl (Builtin e)
        | inr d1 => inr (mk obs_shape float32 1 n_actions (d0 * d1))
        end
    end.

End envs.

(** [DQN_agent.get_env_specs], on the agent's [env_train]. *)
Module DQN_agent_env.

(** gets env_train parameters *)
Definition get_env_specs (env_train : gym_env) (stack_frames : Z)
    : specs_exn + list Z * dtype * Z * Z :=
  let n_actions := action_space_n env_train in
  let obs_shape := observation_space_shape env_train in
  if decide (length obs_shape = 3%nat) then
    if decide (stack_frames > 1)%Z then
      inr (obs_shape, uint8, stack_frames, n_actions)
    else inl AssertionError
  else inr (obs_shape, float32, 1%Z, n_actions).

End DQN_agent_env.

(** [self.obs_dtype] as [DQN_Model.__init__] chooses it from
    [env_specs['obs_shape']]. *)
Definition model_obs_dtype (obs_shape : list Z) : dtype :=
  if decide (length obs_shape = 3%nat) then uint8 else float32.

(** ** More of the small instance *)

(** A model of an architecture kind that does not exist. *)
Definition toy_model_unknown : DQN_Model.t :=
  DQN_Model.__init__ 2 1 1%Q 0.99%Q 0.001%Q 0.1%Q 0.1%Q 100 false "lstm".

Definition toy_agent_unknown : DQN_agent.t :=
  DQN_agent.mk toy_model_unknown 0%nat "toy" 0 0 0 0 [] [] [] 0%Q.

(** An agent with networks and the given hyperparameters. *)
Definition toy_agent_with (batch_size target_update learn_frequency : Z)
    : DQN_agent.t :=
  DQN_agent.mk toy_model_with_networks 0%nat "toy" 0 batch_size target_update
               learn_frequency [] [] [] 0%Q.

(** The model after [init_networks]. *)
Definition toy_initialised : DQN_Model.t * sys :=
  (DQN_Model.init_networks (toy_model 100, Sys 0 ∅ [])).2.

(** A checkpoint that holds one bias of the dense network and nothing
    else. *)
Definition toy_sys_with_partial_checkpoint : sys :=
  Sys 0 {[ "drl_api/saves/toy-DQN" :=
             {[ "fc.4.bias" := Tensor [2%nat] (λ _, 7%Q) ]} ]} [].

(** A batch whose first action is not an action. *)
Definition toy_bad_batch : list transition :=
  [Transition toy_obs 5 1%Q toy_obs false].

Definition toy_image_env : gym_env := GymEnv 6 [84; 84; 4].
Definition toy_vector_env : gym_env := GymEnv 2 [4].

(* ================================================================= *)
(** * Properties *)

Local Open Scope Q_scope.

Example get_eps_example :
  _eps.get_eps (_eps.mk 1 0.1 0.1) = (Ok (1 - 0.1), _eps.mk (1 - 0.1) 0.1 0.1).
Proof. reflexivity. Qed.

(** ** Arithmetic of [py_max] *)

Lemma Qle_bool_false (a b : Q) : Qle_bool a b = false → b < a.
Proof.
  intros E. apply Qnot_le_lt. intros Hle.
  apply Qle_bool_iff in Hle. congruence.
Qed.

Lemma py_max_spec (a b : Q) :
  (b <= a ∧ py_max a b = a) ∨ (a < b ∧ py_max a b = b).
Proof.
  unfold py_max. destruct (Qle_bool b a) eqn:E.
  - left. split; [by apply Qle_bool_iff | done].
  - right. split; [by apply Qle_bool_false | done].
Qed.

Lemma py_max_lb_l (a b : Q) : a <= py_max a b.
Proof. destruct (py_max_spec a b) as [[Hc Hm]|[Hc Hm]]; rewrite Hm; lra. Qed.

Lemma py_max_lb_r (a b : Q) : b <= py_max a b.
Proof. destruct (py_max_spec a b) as [[Hc Hm]|[Hc Hm]]; rewrite Hm; lra. Qed.

Lemma Qgtb_true (a b : Q) : Qgtb a b = true ↔ b < a.
Proof.
  unfold Qgtb. destruct (Qle_bool a b) eqn:E; simpl.
  - apply Qle_bool_iff in E. split; [done | intros; lra].
  - apply Qle_bool_false in E. done.
Qed.

Lemma Qgtb_false (a b : Q) : Qgtb a b = false ↔ a <= b.
Proof.
  unfold Qgtb. destruct (Qle_bool a b) eqn:E; simpl.
  - apply Qle_bool_iff in E. done.
  - apply Qle_bool_false in E. split; [done | intros; lra].
Qed.

(** ** The scheduler *)

Lemma get_eps_run (s : _eps.t) :
  _eps.get_eps s =
    (Ok (py_max (_eps.min_eps s) (_eps.eps s - _eps.decay s)),
     _eps.mk (py_max (_eps.min_eps s) (_eps.eps s - _eps.decay s))
             (_eps.min_eps s) (_eps.decay s)).
Proof. reflexivity. Qed.

Lemma get_eps_n_succ (n : nat) (s : _eps.t) :
  _eps.get_eps_n (S n) s =
    let r := py_max (_eps.min_eps s) (_eps.eps s - _eps.decay s) in
    match _eps.get_eps_n n (_eps.mk r (_eps.min_eps s) (_eps.decay s)) with
    | (Ok rs, s') => (Ok (r :: rs), s')
    | (Raise e, s') => (Raise e, s')
    end.
Proof. reflexivity. Qed.

(** [n] calls return [n] values, each between the floor and the larger of
    the floor and the stored epsilon, in non-increasing order. *)
Lemma get_eps_n_spec (n : nat) (s : _eps.t) :
  0 <= _eps.decay s →
  ∃ rs s',
    _eps.get_eps_n n s = (Ok rs, s') ∧ length rs = n ∧
    (∀ (i : nat) r, rs !! i = Some r →
       _eps.min_eps s <= r ∧ r <= py_max (_eps.min_eps s) (_eps.eps s)) ∧
    (∀ (i j : nat) ri rj, (i ≤ j)%nat → rs !! i = Some ri → rs !! j = Some rj →
       rj <= ri).
Proof.
  revert s. induction n as [|n IH]; intros s Hd.
  - exists [], s. split; [done|]. split; [done|].
    split; intros i; intros; destruct i; discriminate.
  - rewrite get_eps_n_succ. cbv zeta.
    set (r := py_max (_eps.min_eps s) (_eps.eps s - _eps.decay s)).
    destruct (IH (_eps.mk r (_eps.min_eps s) (_eps.decay s)) Hd)
      as (rs & s' & -> & Hlen & Hb & Hs). simpl in Hb.
    assert (Hr : _eps.min_eps s <= r ∧ r <= py_max (_eps.min_eps s) (_eps.eps s)).
    { subst r.
      destruct (py_max_spec (_eps.min_eps s) (_eps.eps s - _eps.decay s))
        as [[Hc Hm]|[Hc Hm]]; rewrite Hm;
      destruct (py_max_spec (_eps.min_eps s) (_eps.eps s))
        as [[Hc' Hm']|[Hc' Hm']]; rewrite Hm'; lra. }
    assert (Hr' : py_max (_eps.min_eps s) r <= r).
    { destruct (py_max_spec (_eps.min_eps s) r) as [[Hc Hm]|[Hc Hm]];
        rewrite Hm; lra. }
    exists (r :: rs), s'. split; [done|]. split; [simpl; lia|]. split.
    + intros [|i] x Hx; simpl in Hx.
      * by simplify_eq.
      * destruct (Hb i x Hx). split; [done | lra].
    + intros [|i] [|j] ri rj Hij Hi Hj; simpl in Hi, Hj; simplify_eq.
      * lra.
      * destruct (Hb j rj Hj). lra.
      * lia.
      * apply (Hs i j); [lia | done | done].
Qed.

(** The floor holds for any decay step. *)
Lemma get_eps_n_floor (n : nat) (s : _eps.t) :
  ∃ rs s',
    _eps.get_eps_n n s = (Ok rs, s') ∧ length rs = n ∧
    ∀ (i : nat) r, rs !! i = Some r → _eps.min_eps s <= r.
Proof.
  revert s. induction n as [|n IH]; intros s.
  - exists [], s. split; [done|]. split; [done|].
    intros i r Hi. destruct i; discriminate.
  - rewrite get_eps_n_succ. cbv zeta.
    set (r := py_max (_eps.min_eps s) (_eps.eps s - _eps.decay s)).
    destruct (IH (_eps.mk r (_eps.min_eps s) (_eps.decay s)))
      as (rs & s' & -> & Hlen & Hb). simpl in Hb.
    exists (r :: rs), s'. split; [done|]. split; [simpl; lia|].
    intros [|i] x Hx; simpl in Hx.
    + injection Hx as <-. apply py_max_lb_l.
    + by apply (Hb i).
Qed.

(** C2 (as stated) fails: with epsilon 1, floor 0.1 and decay 0.1 the call
    returns 0.9, the value after the update, not the 1 held before it. *)
Lemma get_eps_returns_value_before_fails :
  ∃ r s', _eps.get_eps (_eps.mk 1 0.1 0.1) = (Ok r, s') ∧
          r == 0.9 ∧ ¬ r == _eps.eps (_eps.mk 1 0.1 0.1).
Proof.
  eexists _, _. split; [reflexivity|]. split; [reflexivity|].
  simpl. intros H. vm_compute in H. discriminate.
Qed.

(** C2 (amended): a call of [get_eps] first sets the stored epsilon to
    [max(min_eps, eps - decay)] and then returns that updated value; it
    leaves the floor and the decay step as they are. *)
Theorem get_eps_decays_then_returns (s : _eps.t) :
  ∃ s', _eps.get_eps s = (Ok (_eps.eps s'), s') ∧
        _eps.eps s' = py_max (_eps.min_eps s) (_eps.eps s - _eps.decay s) ∧
        _eps.min_eps s' = _eps.min_eps s ∧
        _eps.decay s' = _eps.decay s.
Proof.
  exists (_eps.mk (py_max (_eps.min_eps s) (_eps.eps s - _eps.decay s))
                  (_eps.min_eps s) (_eps.decay s)).
  rewrite get_eps_run. done.
Qed.

(** C9: [get_eps_no_decay] and [get_min_eps] return the stored epsilon and
    the floor, and leave the scheduler exactly as it was. *)
Theorem scheduler_queries_leave_state (s : _eps.t) :
  _eps.get_eps_no_decay s = (Ok (_eps.eps s), s) ∧
  _eps.get_min_eps s = (Ok (_eps.min_eps s), s).
Proof. split; reflexivity. Qed.

(** The decay step is meant to be an amount, but nothing checks its sign:
    with a negative one, successive calls return growing values (here 2,
    then 3). *)
Lemma get_eps_sequence_can_increase :
  ∃ r1 r2 s', _eps.get_eps_n 2 (_eps.mk 1 0 (-1)) = (Ok [r1; r2], s') ∧
              r1 == 2 ∧ r2 == 3 ∧ r1 < r2.
Proof.
  eexists _, _, _. split; [reflexivity|]. repeat split.
Qed.

(** C4: [n] successive calls of [get_eps] return [n] values, each at least
    [min_eps], whatever the decay step; on a scheduler whose decay step is
    an amount (not negative) they are non-increasing in call order, and
    once a returned value equals the floor every later one equals
    [min_eps]. *)
Theorem get_eps_sequence_nonincreasing (n : nat) (s : _eps.t) :
  ∃ rs s',
    _eps.get_eps_n n s = (Ok rs, s') ∧ length rs = n ∧
    (∀ (i : nat) r, rs !! i = Some r → _eps.min_eps s <= r) ∧
    (0 <= _eps.decay s →
     ∀ (i j : nat) ri rj, (i ≤ j)%nat → rs !! i = Some ri → rs !! j = Some rj →
       rj <= ri ∧ (ri == _eps.min_eps s → rj == _eps.min_eps s)).
Proof.
  destruct (get_eps_n_floor n s) as (rs & s' & E & Hlen & Hfloor).
  exists rs, s'. split; [done|]. split; [done|]. split; [done|].
  intros Hd i j ri rj Hij Hi Hj.
  destruct (get_eps_n_spec n s Hd) as (rs' & s'' & E' & _ & _ & Hs).
  rewrite E in E'. injection E' as <- <-.
  pose proof (Hs i j ri rj Hij Hi Hj). pose proof (Hfloor j rj Hj).
  split; [done | intros; lra].
Qed.

Lemma get_eps_sequence_nonincreasing_witness :
  ∃ rs s',
    _eps.get_eps_n 9 (_eps.mk 1 0.1 0.1) = (Ok rs, s') ∧ length rs = 9%nat ∧
    (∀ (i : nat) r, rs !! i = Some r → 0.1 <= r) ∧
    ∀ (i j : nat) ri rj, (i ≤ j)%nat → rs !! i = Some ri → rs !! j = Some rj →
      rj <= ri ∧ (ri == 0.1 → rj == 0.1).
Proof.
  destruct (get_eps_sequence_nonincreasing 9 (_eps.mk 1 0.1 0.1))
    as (rs & s' & E & Hlen & Hfloor & Hdecay).
  exists rs, s'. split; [exact E|]. split; [exact Hlen|].
  split; [exact Hfloor|]. apply Hdecay. simpl. lra.
Defined.

(** ** The bootstrap target *)

Lemma foldl_py_max_zeros (row : list Q) :
  foldl py_max 0 ((λ _, 0) <$> row) = 0.
Proof. induction row as [|q row IH]; [done | simpl; apply IH]. Qed.

Lemma row_max_zeros (row : list Q) :
  row ≠ [] → row_max ((λ _, 0) <$> row) = inr 0.
Proof.
  destruct row as [|q row]; [done | intros _].
  simpl. by rewrite foldl_py_max_zeros.
Qed.

Lemma row_max_nonempty (row : list Q) : row ≠ [] → ∃ m, row_max row = inr m.
Proof. destruct row; [done | intros _; simpl; eauto]. Qed.

Lemma max_dim1_spec (q_next : list (list Q)) :
  Forall (λ row, row ≠ []) q_next →
  ∃ ms, max_dim1 q_next = inr ms ∧ length ms = length q_next ∧
        ∀ (i : nat) row, q_next !! i = Some row →
          ∃ m, ms !! i = Some m ∧ row_max row = inr m.
Proof.
  induction 1 as [|row q_next Hrow _ (ms & E & Hlen & Hms)].
  - exists []. repeat split. intros i ? Hi. destruct i; discriminate.
  - destruct (row_max_nonempty row Hrow) as [m Em].
    exists (m :: ms). simpl. rewrite Em, E. repeat split; [by f_equal|].
    intros [|i] row' Hi; simpl in Hi.
    + simplify_eq. eauto.
    + by apply Hms.
Qed.

Lemma mask_rows_nonempty (terminals : list bool) (q_next : list (list Q)) :
  Forall (λ row, row ≠ []) q_next →
  Forall (λ row, row ≠ [])
    (zip_with (λ (t : bool) row, if t then (λ _, 0) <$> row else row)
              terminals q_next).
Proof.
  intros H. revert terminals.
  induction H as [|row q_next Hrow _ IH]; intros [|t terminals]; simpl;
    try by constructor.
  constructor; [|apply IH].
  destruct t; [|done]. by destruct row.
Qed.

(** C3: when the target network's output [q_next] has one non-empty row of
    action values per sample, [learn] obtains a bootstrap target for the
    whole batch, and for every sample whose terminal flag is set that
    target is the sample's reward, whatever the row holds. *)
Theorem terminal_target_is_reward (gamma : Q) (batch : list transition)
    (q_next : list (list Q)) :
  length q_next = length batch →
  Forall (λ row, row ≠ []) q_next →
  ∃ q_target,
    DQN_Model.q_target_of gamma (reward <$> batch) (terminal <$> batch) q_next
      = inr q_target ∧
    length q_target = length batch ∧
    ∀ (i : nat) tr, batch !! i = Some tr → terminal tr = true →
      ∃ q, q_target !! i = Some q ∧ q == reward tr.
Proof.
  intros Hlen Hne. unfold DQN_Model.q_target_of, mask_rows.
  rewrite length_fmap. destruct (decide _) as [_|]; [|congruence].
  set (masked := zip_with _ _ _).
  assert (Hmlen : length masked = length batch).
  { subst masked. rewrite length_zip_with, length_fmap. lia. }
  destruct (max_dim1_spec masked (mask_rows_nonempty _ _ Hne))
    as (ms & E & Hms & Hrow).
  unfold bootstrap. rewrite E, length_fmap.
  destruct (decide _) as [_|]; [|congruence].
  eexists. split; [done|]. split.
  { rewrite length_zip_with, length_fmap. lia. }
  intros i tr Hi Ht.
  destruct (lookup_lt_is_Some_2 q_next i) as [row Hr].
  { rewrite Hlen. by eapply lookup_lt_Some. }
  assert (Hm : masked !! i = Some ((λ _, 0) <$> row)).
  { subst masked. rewrite lookup_zip_with, list_lookup_fmap, Hi, Hr.
    simpl. by rewrite Ht. }
  destruct (Hrow i _ Hm) as (m & Hmi & Hmax).
  rewrite row_max_zeros in Hmax; [simplify_eq|].
  2:{ pose proof (proj1 (Forall_lookup _ _) Hne i row Hr). done. }
  exists (reward tr + gamma * 0). split; [|ring].
  rewrite lookup_zip_with, list_lookup_fmap, Hi, Hmi. done.
Qed.

(** ** Reasoning about computations in [M] *)

Lemma hoare_ret {S A} (P : S → Prop) (a : A) (Q : A → S → Prop) E :
  (∀ s, P s → Q a s) → hoare P (mret a) Q E.
Proof. intros H s Hs. by apply H. Qed.

Lemma hoare_bind {S A B} (P : S → Prop) (m : M S A) (f : A → M S B)
    (R : A → S → Prop) (Q : B → S → Prop) E :
  hoare P m R E → (∀ a, hoare (R a) (f a) Q E) → hoare P (m ≫= f) Q E.
Proof.
  intros Hm Hf s Hs. specialize (Hm s Hs).
  unfold mbind, M_bind. destruct (m s) as [[a|e] s']; [|done].
  by apply Hf.
Qed.

Lemma hoare_conseq {S A} (P P' : S → Prop) (m : M S A) (Q Q' : A → S → Prop)
    (E E' : S → Prop) :
  hoare P' m Q' E' → (∀ s, P s → P' s) → (∀ a s, Q' a s → Q a s) →
  (∀ s, E' s → E s) → hoare P m Q E.
Proof.
  intros Hm HP HQ HE s Hs. specialize (Hm s (HP s Hs)).
  destruct (m s) as [[a|e] s']; auto.
Qed.

Lemma hoare_raise {S A} (P : S → Prop) (e : exn) (Q : A → S → Prop) E :
  (∀ s, P s → E s) → hoare P (raise e) Q E.
Proof. intros H s Hs. by apply H. Qed.

Lemma hoare_gets {S A} (P : S → Prop) (f : S → A) (Q : A → S → Prop) E :
  (∀ s, P s → Q (f s) s) → hoare P (gets f) Q E.
Proof. intros H s Hs. by apply H. Qed.

Lemma hoare_modify {S} (P : S → Prop) (f : S → S) (Q : unit → S → Prop) E :
  (∀ s, P s → Q tt (f s)) → hoare P (modify f) Q E.
Proof. intros H s Hs. by apply H. Qed.

Lemma hoare_of_sum {S A} (P : S → Prop) (r : exn + A) (Q : A → S → Prop) E :
  (∀ s, P s → E s) → (∀ a s, r = inr a → P s → Q a s) →
  hoare P (of_sum r) Q E.
Proof. intros HE HQ s Hs. destruct r; simpl; [by apply HE | by apply HQ]. Qed.

Lemma hoare_pure {S A} (φ : Prop) (P : S → Prop) (m : M S A) Q E :
  (φ → hoare P m Q E) → hoare (λ s, φ ∧ P s) m Q E.
Proof. intros H s [Hφ Hs]. by apply H. Qed.

Lemma keeps_bind {S A B} (I : S → Prop) (m : M S A) (f : A → M S B) :
  keeps I m → (∀ a, keeps I (f a)) → keeps I (m ≫= f).
Proof. intros. by eapply hoare_bind. Qed.

Lemma keeps_ret {S A} (I : S → Prop) (a : A) : keeps I (mret a : M S A).
Proof. by apply hoare_ret. Qed.

Lemma keeps_raise {S A} (I : S → Prop) (e : exn) : keeps I (raise e : M S A).
Proof. by apply hoare_raise. Qed.

Lemma keeps_gets {S A} (I : S → Prop) (f : S → A) : keeps I (gets f).
Proof. by apply hoare_gets. Qed.

Lemma keeps_of_sum {S A} (I : S → Prop) (r : exn + A) : keeps I (of_sum r : M S A).
Proof. by apply hoare_of_sum. Qed.

Lemma keeps_modify {S} (I : S → Prop) (f : S → S) :
  (∀ s, I s → I (f s)) → keeps I (modify f).
Proof. intros. by apply hoare_modify. Qed.

Lemma keeps_if {S A} (I : S → Prop) (b : bool) (m1 m2 : M S A) :
  keeps I m1 → keeps I m2 → keeps I (if b then m1 else m2).
Proof. by destruct b. Qed.

(** A computation on a component keeps whatever the write-back keeps. *)
Lemma keeps_zoom {S T A} (I : S → Prop) (proj : S → T) (inj : T → S → S)
    (m : M T A) :
  (∀ t s, I s → I (inj t s)) → keeps I (zoom proj inj m).
Proof.
  intros H s Hs. unfold zoom. destruct (m (proj s)) as [[a|e] t]; by apply H.
Qed.

(** ** The value model *)

(** What [learn] touches: the eval network, the gradient buffers of the
    target network, and the trace, where the call is recorded. *)
Lemma learn_effect `{Backend} (batch : list transition) (m : DQN_Model.t) (g : sys) :
  ∃ r m' g', DQN_Model.learn batch (m, g) = (r, (m', g')) ∧
    DQN_Model.replay_memory m' = DQN_Model.replay_memory m ∧
    DQN_Model.eps m' = DQN_Model.eps m ∧
    _DQN.params <$> DQN_Model.Q_target m' = _DQN.params <$> DQN_Model.Q_target m ∧
    rng g' = rng g ∧ fs g' = fs g ∧
    trace g' = EvLearn (DQN_Model.replay_memory m) batch :: trace g.
Proof.
  unfold DQN_Model.learn, DQN_Model.get_Q_eval, DQN_Model.get_Q_target,
    DQN_Model.process_batch.
  mrun; eexists _, _, _; (split; [reflexivity|]); simpl; try done;
    repeat split;
    match goal with Ht : DQN_Model.Q_target _ = _ |- _ => by rewrite Ht end.
Qed.

Example toy_agent_ok :
  (toy_agent 2).1 = Ok tt ∧
  DQN_agent.max_avg_score (toy_agent 2).2.1 = 0.
Proof. vm_compute. done. Qed.

Lemma keeps_run {S A} (I : S → Prop) (m : M S A) (s : S) :
  keeps I m → I s → I (m s).2.
Proof. intros Hm Hs. specialize (Hm s Hs). by destruct (m s) as [[?|?] ?]. Qed.

(** ** Properties that no step of the agent disturbs *)

Section insensitive.
Context `{Backend}.

(** [I] looks neither at the model, the environment or the step counter of
    the agent, nor at the process-wide state. *)
Variable I : DQN_agent.t * sys → Prop.
Hypothesis I_model : ∀ a g mdl g', I (a, g) → I (DQN_agent.set_model mdl a, g').
Hypothesis I_env : ∀ a g env, I (a, g) → I (DQN_agent.set_env_train env a, g).
Hypothesis I_step : ∀ a g st, I (a, g) → I (DQN_agent.set_agent_step st a, g).

Lemma I_sys a g g' : I (a, g) → I (a, g').
Proof.
  intros Ha. apply (I_model a g (DQN_agent.model a) g') in Ha.
  by destruct a.
Qed.

Lemma keeps_on_model {A} (m : M (DQN_Model.t * sys) A) :
  keeps I (DQN_agent.on_model m).
Proof.
  apply keeps_zoom. intros [mdl g'] [a g] Ha. by eapply I_model.
Qed.

Lemma keeps_draw (n : nat) : keeps I (draw n).
Proof. intros [a g] Ha. simpl. by eapply I_sys. Qed.

Lemma keeps_random_choice (n : nat) : keeps I (DQN_agent.random_choice n).
Proof.
  unfold DQN_agent.random_choice. destruct (decide _).
  - apply keeps_raise.
  - apply keeps_bind; [apply keeps_draw | intros; apply keeps_ret].
Qed.

Lemma keeps_act_train (obs : tensor) : keeps I (DQN_agent.act_train obs).
Proof.
  unfold DQN_agent.act_train.
  apply keeps_bind; [apply keeps_draw | intros k].
  apply keeps_bind; [apply keeps_on_model | intros e].
  apply keeps_if; [apply keeps_on_model|].
  apply keeps_bind; [apply keeps_gets | intros; apply keeps_random_choice].
Qed.

Lemma keeps_train_loop (render : bool) (fuel : nat) (score : Q) (obs : tensor) :
  keeps I (DQN_agent.train_loop render fuel score obs).
Proof.
  revert score obs. induction fuel as [|fuel IH]; intros score obs; simpl.
  { apply keeps_raise. }
  apply keeps_bind.
  { apply keeps_if; [|apply keeps_ret].
    apply keeps_modify. intros [a g]. apply I_env. }
  intros _.
  apply keeps_bind; [apply keeps_act_train | intros action].
  apply keeps_bind; [apply keeps_gets | intros self].
  destruct (env_step _ _) as [[[obs_ reward] done] env'].
  apply keeps_bind.
  { apply keeps_modify. intros [a g]. apply I_env. }
  intros _. apply keeps_bind; [apply keeps_on_model | intros _].
  apply keeps_bind; [apply keeps_on_model | intros counter].
  apply keeps_bind; [apply keeps_gets | intros self'].
  apply keeps_bind.
  { apply keeps_if; [|apply keeps_ret].
    apply keeps_bind; [apply keeps_of_sum | intros; apply keeps_ret]. }
  intros go. apply keeps_bind.
  { apply keeps_if; [|apply keeps_ret].
    apply keeps_bind; [apply keeps_on_model | intros; apply keeps_on_model]. }
  intros _. apply keeps_bind.
  { apply keeps_modify. intros [a g]. apply I_step. }
  intros _. apply keeps_bind; [apply keeps_gets | intros self''].
  apply keeps_bind; [apply keeps_of_sum | intros r].
  apply keeps_bind.
  { apply keeps_if; [apply keeps_on_model | apply keeps_ret]. }
  intros _. apply keeps_if; [apply keeps_ret | apply IH].
Qed.

Lemma keeps_train_step (render : bool) (fuel : nat) :
  keeps I (DQN_agent.train_step render fuel).
Proof.
  unfold DQN_agent.train_step.
  apply keeps_bind; [apply keeps_gets | intros self].
  destruct (env_reset _) as [obs env'].
  apply keeps_bind.
  { apply keeps_modify. intros [a g]. apply I_env. }
  intros _. apply keeps_bind; [apply keeps_on_model | intros _].
  apply keeps_bind; [apply keeps_train_loop | intros score].
  apply keeps_bind; [apply keeps_on_model | intros; apply keeps_ret].
Qed.

Lemma keeps_load_save (path : string) : keeps I (DQN_agent.load_save path).
Proof. apply keeps_on_model. Qed.

Lemma keeps_act_eval (obs : tensor) : keeps I (DQN_agent.act_eval obs).
Proof.
  unfold DQN_agent.act_eval.
  apply keeps_bind; [apply keeps_draw | intros k].
  apply keeps_bind; [apply keeps_on_model | intros e].
  apply keeps_if; [apply keeps_on_model|].
  apply keeps_bind; [apply keeps_gets | intros; apply keeps_random_choice].
Qed.

(** Nor does [play]. *)
Lemma keeps_played (s s' : DQN_agent.t * sys) :
  DQN_agent.played s s' → I s → I s'.
Proof.
  induction 1 as [s|state s s' _ IH|env s s' _ IH]; intros Hs; [done|..].
  - apply IH. by apply keeps_run; [apply keeps_act_eval|].
  - apply IH. destruct s as [a g]. by apply I_env.
Qed.

(** The bookkeeping of [train] writes the score lists and the epsilon log. *)
Hypothesis I_scores : ∀ a g l, I (a, g) → I (DQN_agent.set_scores l a, g).
Hypothesis I_avg_scores : ∀ a g l, I (a, g) → I (DQN_agent.set_avg_scores l a, g).
Hypothesis I_eps_history :
  ∀ a g l, I (a, g) → I (DQN_agent.set_eps_history l a, g).

Lemma keeps_train_episode (render : bool) (fuel : nat) :
  keeps I (DQN_agent.train_episode render fuel).
Proof.
  unfold DQN_agent.train_episode, DQN_agent.on_eps.
  apply keeps_bind; [apply keeps_on_model | intros e].
  apply keeps_bind.
  { apply keeps_modify. intros [a g]. apply I_eps_history. }
  intros _. apply keeps_bind; [apply keeps_train_step | intros score].
  apply keeps_bind.
  { apply keeps_modify. intros [a g]. apply I_scores. }
  intros _. apply keeps_bind; [apply keeps_gets | intros self].
  apply keeps_bind; [|intros; apply keeps_ret].
  apply keeps_modify. intros [a g]. apply I_avg_scores.
Qed.

End insensitive.

(** ** Evaluation and checkpoints *)

Section evaluation.
Context `{Backend}.

Lemma eval_step_not_better (avg_score : Q) (s : DQN_agent.t * sys) :
  avg_score <= DQN_agent.max_avg_score s.1 →
  DQN_agent.eval_step avg_score s = (Ok tt, s).
Proof.
  intros Hle. destruct s as [a g]. unfold DQN_agent.eval_step.
  apply Qgtb_false in Hle. simpl in Hle. mrun. done.
Qed.

Lemma eval_step_keeps_best_nonneg (avg_score : Q) :
  keeps best_nonneg (DQN_agent.eval_step avg_score).
Proof.
  intros [a g] Ha. unfold best_nonneg in *. simpl in Ha.
  destruct (Qgtb avg_score (DQN_agent.max_avg_score a)) eqn:E.
  - apply Qgtb_true in E. unfold DQN_agent.eval_step, DQN_agent.on_model,
      DQN_Model.get_Q_eval, save_model.
    mrun; lra.
  - apply Qgtb_false in E. rewrite eval_step_not_better by done. done.
Qed.

Lemma run_best_nonneg (s0 s : DQN_agent.t * sys) :
  best_nonneg s0 → run s0 s → best_nonneg s.
Proof.
  intros H0.
  induction 1 as [|render fuel s _ IH|avg s _ IH|path s _ IH
                  |render fuel s _ IH|s s' _ IH Hplay]; [done|..].
  - apply keeps_run; [|done]. by apply keeps_train_step.
  - apply keeps_run; [|done]. apply eval_step_keeps_best_nonneg.
  - apply keeps_run; [|done]. by apply keeps_load_save.
  - apply keeps_run; [|done]. by apply keeps_train_episode.
  - by apply (keeps_played best_nonneg) in Hplay.
Qed.

Lemma init_best_zero (target_update batch_size learn_frequency : Z)
    (s s0 : DQN_agent.t * sys) :
  DQN_agent.__init__ target_update batch_size learn_frequency s = (Ok tt, s0) →
  DQN_agent.max_avg_score s0.1 = 0 ∧ DQN_agent.batch_size s0.1 = batch_size.
Proof.
  destruct s as [a g]. unfold DQN_agent.__init__, DQN_agent.on_model.
  cbv [mbind M_bind set_self modify zoom]. simpl.
  destruct (DQN_Model.init_networks _) as [[[]|e] [mdl g']]; simpl; [|done].
  intros [= <-]. done.
Qed.

End evaluation.

(** ** Networks of one architecture *)

Section networks.
Context `{Backend}.

Lemma shape_alter (f : tensor → tensor) (key : string) (ps : gmap string tensor) :
  (∀ x, shape (f x) = shape x) → shape <$> alter f key ps = shape <$> ps.
Proof.
  intros Hf. rewrite (fmap_alter shape f id) by (intros; apply Hf).
  apply alter_id. done.
Qed.

(** The shapes of freshly drawn parameters are those of the architecture,
    whatever is drawn. *)
Lemma fresh_params_shape (seed : nat) (specs : list (string * list nat * param_kind)) :
  shape <$> _DQN.fresh_params seed specs =
    list_to_map ((λ '(key, shp, _), (key, shp)) <$> specs).
Proof.
  unfold _DQN.fresh_params. rewrite <- (list_to_map_fmap shape), fmap_imap.
  f_equal. rewrite <- imap_const. apply imap_ext.
  intros i [[key shp] kind] _. done.
Qed.

Lemma init_weights_shape (seed : nat) (q : _DQN.t) :
  shape <$> _DQN.params (_DQN.init_weights seed q) = shape <$> _DQN.params q.
Proof.
  unfold _DQN.init_weights. simpl.
  induction (imap _ _) as [|[k [[key shp] kind]] l IH]; [done|].
  simpl. destruct kind; by rewrite shape_alter.
Qed.

Lemma init_weights_arch (seed : nat) (q : _DQN.t) :
  _DQN.nntype (_DQN.init_weights seed q) = _DQN.nntype q ∧
  _DQN.in_dim (_DQN.init_weights seed q) = _DQN.in_dim q ∧
  _DQN.out_dim (_DQN.init_weights seed q) = _DQN.out_dim q ∧
  _DQN.conv (_DQN.init_weights seed q) = _DQN.conv q ∧
  _DQN.fc (_DQN.init_weights seed q) = _DQN.fc q.
Proof. done. Qed.

(** The constructor succeeds on either architecture kind; what it builds
    depends on the draws through the parameter values only. *)
Lemma network_constructed (seed in_dim out_dim : nat) (lr : Q)
    (name kind : string) (gpu : bool) :
  kind = "dense" ∨ kind = "conv" →
  ∃ conv fc,
    _DQN.architecture kind in_dim out_dim 2048 = inr (conv, fc) ∧
    _DQN.__init__ seed in_dim out_dim lr name kind gpu =
      inr (_DQN.mk in_dim out_dim 2048 kind conv fc name lr gpu
                   (_DQN.fresh_params seed (_DQN.param_specs conv fc)) ∅ ∅).
Proof.
  intros [-> | ->]; eexists _, _; (split; [reflexivity|]); reflexivity.
Qed.

(** A state dict of the parameters' names and shapes replaces them all. *)
Lemma loaded_params_all (sd ps : gmap string tensor) :
  shape <$> sd = shape <$> ps → _DQN.loaded_params sd ps = sd.
Proof.
  intros E. apply map_eq. intros key. unfold _DQN.loaded_params.
  rewrite map_lookup_imap.
  assert ((shape <$> sd) !! key = (shape <$> ps) !! key) as Hkey by by rewrite E.
  rewrite !lookup_fmap in Hkey.
  destruct (sd !! key) as [v|], (ps !! key) as [p|]; simpl in *; try done.
  rewrite decide_True by congruence. done.
Qed.

(** The shapes of the parameters are not touched by a load. *)
Lemma loaded_params_shape (sd ps : gmap string tensor) :
  shape <$> _DQN.loaded_params sd ps = shape <$> ps.
Proof.
  apply map_eq. intros key. unfold _DQN.loaded_params.
  rewrite !lookup_fmap, map_lookup_imap.
  destruct (ps !! key) as [p|]; simpl; [|done].
  destruct (sd !! key) as [v|]; [|done]. case_decide; simpl; congruence.
Qed.

Lemma load_state_dict_ok (sd : gmap string tensor) (q : _DQN.t) :
  shape <$> sd = shape <$> _DQN.params q →
  _DQN.load_state_dict sd q = (Ok tt, _DQN.set_params sd q).
Proof.
  intros E. unfold _DQN.load_state_dict.
  by rewrite decide_True, loaded_params_all.
Qed.

Lemma replace_target_network_ok (m : DQN_Model.t) (g : sys) (e t : _DQN.t) :
  DQN_Model.Q_eval m = Some e → DQN_Model.Q_target m = Some t →
  shape <$> _DQN.params e = shape <$> _DQN.params t →
  DQN_Model.replace_target_network (m, g) =
    (Ok tt, (DQN_Model.set_Q_target (Some (_DQN.set_params (_DQN.params e) t)) m, g)).
Proof.
  intros He Ht Hs.
  unfold DQN_Model.replace_target_network, DQN_Model.get_Q_eval,
    DQN_Model.get_Q_target, _DQN.state_dict.
  cbv [mbind M_bind self_ gets of_option mret M_ret]. simpl. rewrite He. simpl.
  rewrite Ht. simpl. rewrite decide_True, loaded_params_all by done.
  reflexivity.
Qed.

Lemma keeps_mapM {S A B} (I : S → Prop) (f : A → M S B) (l : list A) :
  (∀ x, keeps I (f x)) → keeps I (mapM f l).
Proof.
  intros Hf. induction l as [|x l IH]; simpl.
  - apply keeps_ret.
  - apply keeps_bind; [apply Hf | intros y].
    apply keeps_bind; [apply IH | intros; apply keeps_ret].
Qed.

Lemma learn_keeps_target (X : option (gmap string tensor)) (R : ReplayMemory.t)
    (E : _eps.t) (batch : list transition) :
  keeps (λ s : DQN_Model.t * sys,
           _DQN.params <$> DQN_Model.Q_target s.1 = X ∧
           DQN_Model.replay_memory s.1 = R ∧ DQN_Model.eps s.1 = E)
        (DQN_Model.learn batch).
Proof.
  intros [m g] (HX & HR & HE). simpl in *.
  destruct (learn_effect batch m g) as (r & m' & g' & -> & Hr & He & Ht & _).
  destruct r; simpl; by rewrite Hr, He, Ht.
Qed.

End networks.

(** C5: when both networks exist and have parameters of the same names and
    shapes, [replace_target_network] returns with the target network
    holding the parameters of the eval network, which it leaves alone; and
    after any number of later [learn] calls, whether the last one returned
    or raised, the target network still holds exactly those parameters
    (the replay memory and the scheduler are untouched as well). *)
Theorem target_sync_then_learn `{Backend} (m : DQN_Model.t) (g : sys)
    (e t : _DQN.t) (batches : list (list transition)) :
  DQN_Model.Q_eval m = Some e → DQN_Model.Q_target m = Some t →
  shape <$> _DQN.params e = shape <$> _DQN.params t →
  ∃ m1,
    DQN_Model.replace_target_network (m, g) = (Ok tt, (m1, g)) ∧
    DQN_Model.Q_eval m1 = Some e ∧
    _DQN.params <$> DQN_Model.Q_target m1 = Some (_DQN.params e) ∧
    let s2 := (mapM (DQN_Model.learn) batches (m1, g)).2 in
    _DQN.params <$> DQN_Model.Q_target s2.1 = Some (_DQN.params e) ∧
    DQN_Model.replay_memory s2.1 = DQN_Model.replay_memory m ∧
    DQN_Model.eps s2.1 = DQN_Model.eps m.
Proof.
  intros He Ht Hs. eexists. split; [by apply replace_target_network_ok|].
  split; [done|]. split; [done|]. cbv zeta.
  apply (keeps_run
    (λ s : DQN_Model.t * sys,
       _DQN.params <$> DQN_Model.Q_target s.1 = Some (_DQN.params e) ∧
       DQN_Model.replay_memory s.1 = DQN_Model.replay_memory m ∧
       DQN_Model.eps s.1 = DQN_Model.eps m)
    (mapM (DQN_Model.learn) batches)).
  - apply keeps_mapM. intros batch. apply learn_keeps_target.
  - done.
Qed.

(** C6: for either architecture kind, [init_networks] returns with an eval
    and a target network of the same architecture (kind, dimensions, layer
    stacks), and the target network holds the parameters of the eval
    network. *)
Theorem init_networks_synchronized `{Backend} (m : DQN_Model.t) (g : sys) :
  DQN_Model.nntype m = "dense" ∨ DQN_Model.nntype m = "conv" →
  ∃ e t m' g',
    DQN_Model.init_networks (m, g) = (Ok tt, (m', g')) ∧
    DQN_Model.Q_eval m' = Some e ∧ DQN_Model.Q_target m' = Some t ∧
    (_DQN.nntype e = _DQN.nntype t ∧ _DQN.in_dim e = _DQN.in_dim t ∧
     _DQN.out_dim e = _DQN.out_dim t ∧ _DQN.conv e = _DQN.conv t ∧
     _DQN.fc e = _DQN.fc t) ∧
    _DQN.params t = _DQN.params e.
Proof.
  intros Hk.
  destruct (network_constructed (rng g) (DQN_Model.in_dims m)
              (DQN_Model.n_actions m) (DQN_Model.lr m) "eval"
              (DQN_Model.nntype m) (DQN_Model.gpu m) Hk)
    as (conv & fc & Harch & He).
  set (n := length (_DQN.param_specs conv fc)).
  destruct (network_constructed (rng g + n) (DQN_Model.in_dims m)
              (DQN_Model.n_actions m) (DQN_Model.lr m) "target"
              (DQN_Model.nntype m) (DQN_Model.gpu m) Hk)
    as (conv' & fc' & Harch' & Ht).
  rewrite Harch in Harch'. injection Harch' as <- <-.
  unfold DQN_Model.init_networks.
  cbv [mbind M_bind self_ seed_ gets mret M_ret]. cbn [fst snd rng].
  rewrite He. cbv [of_sum mret M_ret draw set_self modify].
  cbn [fst snd _DQN.conv _DQN.fc rng]. fold n.
  rewrite Ht. cbn [fst snd _DQN.conv _DQN.fc rng]. fold n.
  erewrite replace_target_network_ok; [|reflexivity|reflexivity|].
  - eexists _, _, _, _. split; [reflexivity|].
    split; [reflexivity|]. split; [reflexivity|]. done.
  - rewrite init_weights_shape. cbn [_DQN.params].
    by rewrite !fresh_params_shape.
Qed.

(** C7: when both networks exist and the checkpoint at [path] has the names
    and shapes of their parameters, [load_save] returns, and afterwards the
    eval network and the target network both hold the checkpoint's
    parameters (so they hold the same ones). *)
Theorem load_save_restores_both (path : string) (m : DQN_Model.t)
    (g : sys) (e t : _DQN.t) (sd : gmap string tensor) :
  DQN_Model.Q_eval m = Some e → DQN_Model.Q_target m = Some t →
  fs g !! path = Some sd →
  shape <$> sd = shape <$> _DQN.params e →
  shape <$> sd = shape <$> _DQN.params t →
  ∃ m',
    DQN_Model.load_save path (m, g) = (Ok tt, (m', g)) ∧
    _DQN.state_dict <$> DQN_Model.Q_eval m' = Some sd ∧
    _DQN.state_dict <$> DQN_Model.Q_target m' = Some sd.
Proof.
  intros He Ht Hsd Hse Hst.
  unfold DQN_Model.load_save, DQN_Model.get_Q_eval, DQN_Model.get_Q_target.
  cbv [mbind M_bind self_ gets of_option mret M_ret torch_load set_self modify].
  repeat (simpl; first [ rewrite He | rewrite Ht | rewrite Hsd
                       | rewrite decide_True by done
                       | rewrite loaded_params_all by done ]).
  simpl. eexists. split; [reflexivity|]. done.
Qed.

(** C8: with the eval network in place, [eval_step] on a mean score that
    strictly exceeds the best-score record sets the record to that score
    and writes the eval network's parameters as a checkpoint (one save
    event); on any other mean score it returns with the record, the files
    and the trace exactly as they were. *)
Theorem eval_step_saves_iff_better `{Backend} (avg_score : Q)
    (a : DQN_agent.t) (g : sys) (q_eval : _DQN.t) :
  DQN_Model.Q_eval (DQN_agent.model a) = Some q_eval →
  let path := save_path "drl_api/saves" (DQN_agent.env_name a)
                        (DQN_Model.name (DQN_agent.model a)) in
  (DQN_agent.max_avg_score a < avg_score →
     DQN_agent.eval_step avg_score (a, g) =
       (Ok tt, (DQN_agent.set_max_avg_score avg_score a,
                Sys (rng g) (<[path := _DQN.params q_eval]> (fs g))
                    (EvSave path (_DQN.params q_eval) :: trace g)))) ∧
  (avg_score <= DQN_agent.max_avg_score a →
     DQN_agent.eval_step avg_score (a, g) = (Ok tt, (a, g))).
Proof.
  intros He path. split.
  - intros Hlt. apply Qgtb_true in Hlt.
    unfold DQN_agent.eval_step, DQN_agent.on_model, DQN_Model.get_Q_eval,
      save_model.
    cbv [mbind M_bind self_ gets of_option mret M_ret set_self modify zoom emit].
    simpl. rewrite Hlt. simpl. rewrite He. simpl. by destruct a.
  - intros Hle. by apply eval_step_not_better.
Qed.

(** C10: the constructor leaves the best-score record at 0; and in every
    state of a run that starts there (training episodes with or without
    the bookkeeping of [train], [play], earlier evaluations, checkpoint
    loads; the first evaluation included), an evaluation whose mean score
    is at most 0 returns with the whole state as it was: no checkpoint is
    written and the record is not updated. *)
Theorem nonpositive_score_never_saved `{Backend}
    (target_update batch_size learn_frequency : Z)
    (s s0 s' : DQN_agent.t * sys) (avg_score : Q) :
  DQN_agent.__init__ target_update batch_size learn_frequency s = (Ok tt, s0) →
  run s0 s' → avg_score <= 0 →
  DQN_agent.max_avg_score s0.1 = 0 ∧
  DQN_agent.eval_step avg_score s' = (Ok tt, s').
Proof.
  intros Hinit Hrun Havg.
  destruct (init_best_zero _ _ _ _ _ Hinit) as [H0 _].
  split; [done|]. apply eval_step_not_better.
  assert (best_nonneg s') as Hs'.
  { eapply run_best_nonneg; [|done]. unfold best_nonneg. rewrite H0. lra. }
  unfold best_nonneg in Hs'. lra.
Qed.

(** ** The learn gate of a training episode *)

Section gate.
Context `{Backend}.

Lemma quiet_get_action (st : tensor) : quiet (DQN_Model.get_action st).
Proof. unfold DQN_Model.get_action, DQN_Model.get_Q_eval. quiet_run. Qed.

Lemma quiet_sample (n : Z) : quiet (DQN_Model.sample n).
Proof. unfold DQN_Model.sample. quiet_run. Qed.

Lemma quiet_replace_target_network : quiet DQN_Model.replace_target_network.
Proof.
  unfold DQN_Model.replace_target_network, DQN_Model.get_Q_eval,
    DQN_Model.get_Q_target.
  quiet_run.
Qed.

Lemma quiet_set_done (b : bool) : quiet (set_self (DQN_Model.set_done b)).
Proof. quiet_run. Qed.

Lemma quiet_get_counter : quiet DQN_Model.get_counter.
Proof. unfold DQN_Model.get_counter. quiet_run. Qed.

Lemma quiet_eps {A} (m : M _eps.t A) :
  quiet (zoom (λ '(mdl, _), DQN_Model.eps mdl)
              (λ e '(mdl, g), (DQN_Model.set_eps e mdl, g)) m).
Proof. intros mdl g. unfold zoom. by destruct (m _). Qed.

Lemma gated_on_model_quiet {A} b tr0 (m : M (DQN_Model.t * sys) A) :
  quiet m → keeps (gated b tr0) (DQN_agent.on_model m).
Proof.
  intros Hm [a g] [Hb Htr]. simpl in *.
  destruct (Hm (DQN_agent.model a) g) as [Ht _].
  unfold DQN_agent.on_model, zoom.
  destruct (m _) as [[x|e] [mdl g']]; unfold gated; simpl in *;
    by rewrite Ht.
Qed.

Lemma gated_at_on_model_quiet {A} b tr0 c (m : M (DQN_Model.t * sys) A) :
  quiet m → keeps (gated_at b tr0 c) (DQN_agent.on_model m).
Proof.
  intros Hm [a g] [Hc [Hb Htr]]. simpl in *.
  destruct (Hm (DQN_agent.model a) g) as [Ht Hr].
  unfold DQN_agent.on_model, zoom.
  destruct (m _) as [[x|e] [mdl g']]; unfold gated_at, gated; simpl in *;
    by rewrite Hr, Ht.
Qed.

(** [store_transition] changes the replay memory, not the trace. *)
Lemma gated_store_transition b tr0 (tr : transition) :
  keeps (gated b tr0) (DQN_agent.on_model (DQN_Model.store_transition tr)).
Proof.
  intros [a g] [Hb Htr]. simpl in *.
  unfold DQN_agent.on_model, DQN_Model.store_transition, ReplayMemory.push.
  mrun; done.
Qed.

Lemma gated_draw b tr0 (n : nat) : keeps (gated b tr0) (draw n).
Proof. intros [a g] Hs. done. Qed.

Lemma gated_random_choice b tr0 (n : nat) :
  keeps (gated b tr0) (DQN_agent.random_choice n).
Proof.
  unfold DQN_agent.random_choice. destruct (decide _).
  - apply keeps_raise.
  - apply keeps_bind; [apply gated_draw | intros; apply keeps_ret].
Qed.

Lemma gated_act_train b tr0 (obs : tensor) :
  keeps (gated b tr0) (DQN_agent.act_train obs).
Proof.
  unfold DQN_agent.act_train, DQN_agent.on_eps.
  apply keeps_bind; [apply gated_draw | intros k].
  apply keeps_bind; [apply gated_on_model_quiet, quiet_eps | intros e].
  apply keeps_if; [apply gated_on_model_quiet, quiet_get_action|].
  apply keeps_bind; [apply keeps_gets | intros; apply gated_random_choice].
Qed.

(** The call of [learn] behind the gate. *)
Lemma gated_learn b tr0 c (batch : list transition) :
  (c > b)%Z →
  hoare (gated_at b tr0 c) (DQN_agent.learn batch) (λ _, gated b tr0) (gated b tr0).
Proof.
  intros Hc [a g] [Hcnt [Hb (new & Htr & Hnew)]]. simpl in *.
  destruct (learn_effect batch (DQN_agent.model a) g)
    as (r & m' & g' & E & _ & _ & _ & _ & _ & Ht).
  unfold DQN_agent.learn, DQN_agent.on_model, zoom. rewrite E.
  assert (gated b tr0 (DQN_agent.set_model m' a, g')) as Hg.
  { split; [done|]. simpl. rewrite Ht, Htr.
    eexists (_ :: new). split; [done|]. constructor; [|done].
    simpl. by rewrite Hcnt. }
  by destruct r.
Qed.

Lemma gated_train_loop b tr0 (render : bool) (fuel : nat) (score : Q)
    (obs : tensor) :
  keeps (gated b tr0) (DQN_agent.train_loop render fuel score obs).
Proof.
  revert score obs. induction fuel as [|fuel IH]; intros score obs; simpl.
  { apply keeps_raise. }
  apply keeps_bind.
  { apply keeps_if; [|apply keeps_ret]. apply keeps_modify. by intros [a g]. }
  intros _.
  apply keeps_bind; [apply gated_act_train | intros action].
  apply keeps_bind; [apply keeps_gets | intros self].
  destruct (env_step _ _) as [[[obs_ reward] done] env'].
  apply keeps_bind.
  { apply keeps_modify. by intros [a g]. }
  intros _. apply keeps_bind; [apply gated_store_transition | intros _].
  (* the counter read here is the one the gate tests *)
  apply hoare_bind with (R := λ c, gated_at b tr0 c).
  { intros [a g] Hs. unfold DQN_agent.on_model, DQN_Model.get_counter.
    mrun. split; [done|]. by destruct a. }
  intros c.
  apply hoare_bind with (R := λ self s, DQN_agent.batch_size self = b ∧ gated_at b tr0 c s).
  { apply hoare_gets. intros s Hs. split; [|done]. apply Hs. }
  intros self'. apply hoare_pure. intros Hb. rewrite Hb.
  apply hoare_bind with (R := λ go s, (go = true → (c > b)%Z) ∧ gated_at b tr0 c s).
  { destruct (bool_decide _) eqn:Hgt.
    - apply bool_decide_eq_true in Hgt.
      eapply hoare_bind.
      + apply hoare_of_sum.
        * intros s [_ Hs]. exact Hs.
        * intros r s _ Hs. exact Hs.
      + intros r. apply hoare_ret. done.
    - apply hoare_ret. done. }
  intros go. apply hoare_pure. intros Hgo.
  apply hoare_bind with (R := λ _, gated b tr0).
  { destruct go.
    - eapply hoare_bind.
      + eapply hoare_conseq.
        * apply (gated_at_on_model_quiet b tr0 c), quiet_sample.
        * done.
        * intros batch s Hs. exact Hs.
        * intros s [_ Hs]. exact Hs.
      + intros batch. apply gated_learn. by apply Hgo.
    - apply hoare_ret. intros s [_ Hs]. exact Hs. }
  intros _. apply keeps_bind.
  { apply keeps_modify. by intros [a g]. }
  intros _. apply keeps_bind; [apply keeps_gets | intros self''].
  apply keeps_bind; [apply keeps_of_sum | intros r].
  apply keeps_bind.
  { apply keeps_if; [|apply keeps_ret].
    apply gated_on_model_quiet, quiet_replace_target_network. }
  intros _. apply keeps_if; [apply keeps_ret | apply IH].
Qed.

Lemma gated_train_step b tr0 (render : bool) (fuel : nat) :
  keeps (gated b tr0) (DQN_agent.train_step render fuel).
Proof.
  unfold DQN_agent.train_step.
  apply keeps_bind; [apply keeps_gets | intros self].
  destruct (env_reset _) as [obs env'].
  apply keeps_bind.
  { apply keeps_modify. by intros [a g]. }
  intros _. apply keeps_bind; [apply gated_on_model_quiet, quiet_set_done | intros _].
  apply keeps_bind; [apply gated_train_loop | intros score].
  apply keeps_bind; [apply gated_on_model_quiet, quiet_set_done | intros; apply keeps_ret].
Qed.

End gate.

(** C1 (as stated) fails: the gate tests the write counter, not [size()].
    With a replay memory of two slots and [batch_size = 2], the third step
    of the episode calls [learn] while the counter is 3 and [size()] is 2,
    which does not exceed the batch size. *)
Lemma learn_with_size_not_above_batch_size :
  ∃ r a g mem batch,
    DQN_agent.train_step false 3 (toy_agent 2).2 = (r, (a, g)) ∧
    trace g = [EvLearn mem batch] ∧
    DQN_agent.batch_size a = 2%Z ∧
    ReplayMemory.counter mem = 3%Z ∧
    ReplayMemory.size mem = 2%Z ∧
    ¬ (ReplayMemory.size mem > DQN_agent.batch_size a)%Z.
Proof.
  eexists _, _, _, _, _. split; [vm_compute; reflexivity|].
  split; [reflexivity|]. repeat split. vm_compute. intros Hgt. discriminate.
Qed.

(** C1 (amended): whatever a training episode does (return, raise, or run
    out of steps), every [learn] call it makes happens while the replay
    memory's write counter exceeds [batch_size]; when the capacity of the
    memory exceeds [batch_size] as well, so does [size()] at the call. *)
Theorem learn_gated_by_counter `{Backend} (render : bool) (fuel : nat)
    (a : DQN_agent.t) (g : sys) :
  ∃ new,
    trace (DQN_agent.train_step render fuel (a, g)).2.2 = new ++ trace g ∧
    ∀ mem batch, EvLearn mem batch ∈ new →
      (ReplayMemory.counter mem > DQN_agent.batch_size a)%Z ∧
      ((ReplayMemory.capacity mem > DQN_agent.batch_size a)%Z →
       (ReplayMemory.size mem > DQN_agent.batch_size a)%Z).
Proof.
  destruct (keeps_run _ _ (a, g)
              (gated_train_step (DQN_agent.batch_size a) (trace g) render fuel))
    as [_ (new & Htr & Hnew)].
  { split; [done|]. by exists []. }
  exists new. split; [done|]. intros mem batch Hin.
  pose proof (proj1 (Forall_forall _ _) Hnew _ Hin) as Hgate. simpl in Hgate.
  split; [done|]. unfold ReplayMemory.size. lia.
Qed.

(** ** The theorems at the small instance *)

Example toy_net_constructed :
  _DQN.__init__ 6 1 2 0.001 "target" "dense" false = inr (toy_net "target" 6).
Proof. reflexivity. Qed.

Lemma terminal_target_is_reward_witness :
  (length [[5; 7]; [1; 2]] = length toy_batch ∧
   Forall (λ row : list Q, row ≠ []) [[5; 7]; [1; 2]]) ∧
  ∃ q_target,
    DQN_Model.q_target_of 0.99 (reward <$> toy_batch) (terminal <$> toy_batch)
      [[5; 7]; [1; 2]] = inr q_target ∧
    length q_target = length toy_batch ∧
    ∀ (i : nat) tr, toy_batch !! i = Some tr → terminal tr = true →
      ∃ q, q_target !! i = Some q ∧ q == reward tr.
Proof.
  assert (Hne : Forall (λ row : list Q, row ≠ []) [[5; 7]; [1; 2]]).
  { repeat constructor; discriminate. }
  split; [split; [reflexivity | exact Hne]|].
  apply (terminal_target_is_reward 0.99 toy_batch [[5; 7]; [1; 2]]);
    [reflexivity | exact Hne].
Defined.

Lemma toy_networks_same_shapes :
  shape <$> _DQN.params (toy_net "eval" 0) = shape <$> _DQN.params (toy_net "target" 6).
Proof. vm_compute. reflexivity. Defined.

Lemma toy_checkpoint_shapes (name : string) (seed : nat) :
  shape <$> _DQN.params (toy_net "saved" 40) = shape <$> _DQN.params (toy_net name seed).
Proof. vm_compute. reflexivity. Defined.

Lemma target_sync_then_learn_witness :
  ∃ m1,
    DQN_Model.replace_target_network (toy_model_with_networks, Sys 0 ∅ []) =
      (Ok tt, (m1, Sys 0 ∅ [])) ∧
    DQN_Model.Q_eval m1 = Some (toy_net "eval" 0) ∧
    _DQN.params <$> DQN_Model.Q_target m1 = Some (_DQN.params (toy_net "eval" 0)) ∧
    let s2 := (mapM (DQN_Model.learn) [toy_batch; toy_batch] (m1, Sys 0 ∅ [])).2 in
    _DQN.params <$> DQN_Model.Q_target s2.1 = Some (_DQN.params (toy_net "eval" 0)) ∧
    DQN_Model.replay_memory s2.1 = DQN_Model.replay_memory toy_model_with_networks ∧
    DQN_Model.eps s2.1 = DQN_Model.eps toy_model_with_networks.
Proof.
  apply (target_sync_then_learn toy_model_with_networks (Sys 0 ∅ [])
           (toy_net "eval" 0) (toy_net "target" 6) [toy_batch; toy_batch]);
    [reflexivity | reflexivity | exact toy_networks_same_shapes].
Defined.

Lemma init_networks_synchronized_witness :
  ∃ e t m' g',
    DQN_Model.init_networks (toy_model 100, Sys 0 ∅ []) = (Ok tt, (m', g')) ∧
    DQN_Model.Q_eval m' = Some e ∧ DQN_Model.Q_target m' = Some t ∧
    (_DQN.nntype e = _DQN.nntype t ∧ _DQN.in_dim e = _DQN.in_dim t ∧
     _DQN.out_dim e = _DQN.out_dim t ∧ _DQN.conv e = _DQN.conv t ∧
     _DQN.fc e = _DQN.fc t) ∧
    _DQN.params t = _DQN.params e.
Proof.
  apply (init_networks_synchronized (toy_model 100) (Sys 0 ∅ [])).
  left. reflexivity.
Defined.

Lemma load_save_restores_both_witness :
  ∃ m',
    DQN_Model.load_save "drl_api/saves/toy-DQN"
      (toy_model_with_networks, toy_sys_with_checkpoint) =
      (Ok tt, (m', toy_sys_with_checkpoint)) ∧
    _DQN.state_dict <$> DQN_Model.Q_eval m' = Some (_DQN.params (toy_net "saved" 40)) ∧
    _DQN.state_dict <$> DQN_Model.Q_target m' = Some (_DQN.params (toy_net "saved" 40)).
Proof.
  apply (load_save_restores_both "drl_api/saves/toy-DQN" toy_model_with_networks
           toy_sys_with_checkpoint (toy_net "eval" 0) (toy_net "target" 6));
    [reflexivity | reflexivity | reflexivity
    | exact (toy_checkpoint_shapes "eval" 0)
    | exact (toy_checkpoint_shapes "target" 6)].
Defined.

Lemma eval_step_saves_iff_better_witness :
  let a := toy_agent_with_networks in
  let g := Sys 0 ∅ [] in
  let sd := _DQN.params (toy_net "eval" 0) in
  DQN_agent.eval_step 1 (a, g) =
    (Ok tt, (DQN_agent.set_max_avg_score 1 a,
             Sys 0 (<["drl_api/saves/toy-DQN" := sd]> ∅)
                 [EvSave "drl_api/saves/toy-DQN" sd])) ∧
  DQN_agent.eval_step (-1) (a, g) = (Ok tt, (a, g)).
Proof.
  intros a g sd.
  destruct (eval_step_saves_iff_better 1 a g (toy_net "eval" 0) eq_refl) as [Hgt _].
  destruct (eval_step_saves_iff_better (-1) a g (toy_net "eval" 0) eq_refl) as [_ Hle].
  split; [apply Hgt | apply Hle]; simpl; lra.
Defined.

(** The first evaluation of [train] finds the logs of the first pass. *)
Example toy_first_evaluation_logs :
  DQN_agent.scores toy_first_evaluation.1 = [3] ∧
  length (DQN_agent.avg_scores toy_first_evaluation.1) = 1%nat ∧
  length (DQN_agent.eps_history toy_first_evaluation.1) = 1%nat.
Proof. vm_compute. done. Qed.

Lemma toy_first_evaluation_run : run (toy_agent 2).2 toy_first_evaluation.
Proof.
  eapply run_play; [apply run_train_episode, run_init|].
  apply (DQN_agent.played_act toy_obs). apply DQN_agent.played_done.
Qed.

Lemma nonpositive_score_never_saved_witness :
  DQN_agent.max_avg_score (toy_agent 2).2.1 = 0 ∧
  DQN_agent.eval_step (-1) toy_first_evaluation = (Ok tt, toy_first_evaluation).
Proof.
  apply (nonpositive_score_never_saved 4 2 1 (toy_agent_base 2) (toy_agent 2).2
           toy_first_evaluation (-1)).
  - vm_compute. reflexivity.
  - exact toy_first_evaluation_run.
  - lra.
Defined.

Lemma learn_gated_by_counter_witness :
  ∃ new,
    trace (DQN_agent.train_step false 3 (toy_agent_with_networks, Sys 0 ∅ [])).2.2
      = new ++ [] ∧
    ∀ mem batch, EvLearn mem batch ∈ new →
      (ReplayMemory.counter mem > 2)%Z ∧
      ((ReplayMemory.capacity mem > 2)%Z → (ReplayMemory.size mem > 2)%Z).
Proof.
  apply (learn_gated_by_counter false 3 toy_agent_with_networks (Sys 0 ∅ [])).
Defined.

(** ** Evaluation-time action selection *)

(** Choosing an action at evaluation time reads the scheduler's floor and
    leaves the scheduler as it is. *)
Lemma act_eval_leaves_scheduler `{Backend} (state : tensor)
    (a : DQN_agent.t) (g : sys) :
  DQN_Model.eps (DQN_agent.model (DQN_agent.act_eval state (a, g)).2.1) =
    DQN_Model.eps (DQN_agent.model a).
Proof.
  unfold DQN_agent.act_eval, DQN_agent.on_eps, DQN_agent.on_model,
    DQN_agent.random_choice, _eps.get_min_eps, DQN_Model.get_action,
    DQN_Model.get_Q_eval.
  mrun; by destruct (DQN_Model.eps (DQN_agent.model a)).
Qed.

(* ================================================================= *)
(** * Further properties of the code *)

(** ** Networks that are missing or of an unknown kind *)

Section more_networks.
Context `{Backend}.

Lemma architecture_unknown (kind : string) (i o f : nat) :
  kind ≠ "dense" → kind ≠ "conv" →
  _DQN.architecture kind i o f = inl (SystemExit 1).
Proof.
  intros Hd Hc. unfold _DQN.architecture.
  rewrite decide_False by done. by rewrite decide_False by done.
Qed.

Lemma architecture_cases (kind : string) (i o f : nat) :
  (kind = "dense" ∨ kind = "conv") ∧
  (∃ conv fc, _DQN.architecture kind i o f = inr (conv, fc))
  ∨ (kind ≠ "dense" ∧ kind ≠ "conv" ∧
     _DQN.architecture kind i o f = inl (SystemExit 1)).
Proof.
  unfold _DQN.architecture.
  destruct (decide (kind = "dense")); [left; eauto|].
  destruct (decide (kind = "conv")); [left; eauto|]. by right.
Qed.

Lemma network_init_of_architecture (seed in_dim out_dim : nat) (lr : Q)
    (name kind : string) (gpu : bool) (conv fc : list layer) :
  _DQN.architecture kind in_dim out_dim 2048 = inr (conv, fc) →
  _DQN.__init__ seed in_dim out_dim lr name kind gpu =
    inr (_DQN.mk in_dim out_dim 2048 kind conv fc name lr gpu
                 (_DQN.fresh_params seed (_DQN.param_specs conv fc)) ∅ ∅).
Proof. intros Ha. unfold _DQN.__init__. by rewrite Ha. Qed.

Lemma init_networks_unknown (m : DQN_Model.t) (g : sys) :
  DQN_Model.nntype m ≠ "dense" → DQN_Model.nntype m ≠ "conv" →
  DQN_Model.init_networks (m, g) = (Raise (SystemExit 1), (m, g)).
Proof.
  intros Hd Hc. unfold DQN_Model.init_networks, _DQN.__init__.
  cbv [mbind M_bind self_ seed_ gets mret M_ret]. cbn [fst snd].
  rewrite architecture_unknown by done. reflexivity.
Qed.

(** What [init_networks] leaves behind, spelled out. *)
Lemma init_networks_run (m : DQN_Model.t) (g : sys) (conv fc : list layer) :
  _DQN.architecture (DQN_Model.nntype m) (DQN_Model.in_dims m)
                    (DQN_Model.n_actions m) 2048 = inr (conv, fc) →
  let n := length (_DQN.param_specs conv fc) in
  let net name seed :=
    _DQN.mk (DQN_Model.in_dims m) (DQN_Model.n_actions m) 2048
            (DQN_Model.nntype m) conv fc name (DQN_Model.lr m) (DQN_Model.gpu m)
            (_DQN.fresh_params seed (_DQN.param_specs conv fc)) ∅ ∅ in
  let e := _DQN.init_weights (rng g + n + n)%nat (net "eval" (rng g)) in
  let t := _DQN.set_params (_DQN.params e) (net "target" (rng g + n)%nat) in
  ∃ m',
    DQN_Model.init_networks (m, g) =
      (Ok tt, (m', Sys (rng g + n + n + n) (fs g) (trace g))) ∧
    DQN_Model.Q_eval m' = Some e ∧ DQN_Model.Q_target m' = Some t ∧
    DQN_Model.replay_memory m' = DQN_Model.replay_memory m ∧
    DQN_Model.eps m' = DQN_Model.eps m.
Proof.
  intros Harch n net e t.
  unfold DQN_Model.init_networks.
  cbv [mbind M_bind self_ seed_ gets mret M_ret]. cbn [fst snd rng].
  rewrite (network_init_of_architecture _ _ _ _ _ _ _ _ _ Harch).
  cbv [of_sum mret M_ret draw set_self modify].
  cbn [fst snd _DQN.conv _DQN.fc rng]. fold n.
  rewrite (network_init_of_architecture _ _ _ _ _ _ _ _ _ Harch).
  cbn [fst snd _DQN.conv _DQN.fc rng]. fold n.
  erewrite replace_target_network_ok; [|reflexivity|reflexivity|].
  - eexists. split; [reflexivity|]. done.
  - rewrite init_weights_shape. cbn [_DQN.params].
    by rewrite !fresh_params_shape.
Qed.

Lemma init_networks_ok_inv (m m' : DQN_Model.t) (g g' : sys) :
  DQN_Model.init_networks (m, g) = (Ok tt, (m', g')) →
  (DQN_Model.nntype m = "dense" ∨ DQN_Model.nntype m = "conv") ∧
  ∃ conv fc,
    _DQN.architecture (DQN_Model.nntype m) (DQN_Model.in_dims m)
                      (DQN_Model.n_actions m) 2048 = inr (conv, fc).
Proof.
  intros Hrun.
  destruct (architecture_cases (DQN_Model.nntype m) (DQN_Model.in_dims m)
              (DQN_Model.n_actions m) 2048) as [[Hk Ha]|(Hd & Hc & Ha)]; [done|].
  rewrite init_networks_unknown in Hrun by done. discriminate.
Qed.

End more_networks.

(** X2: when the model's [nntype] is neither ['dense'] nor ['conv'],
    [init_networks] exits with status 1 before any network is assigned or
    any random number drawn, and so does the agent's constructor, which has
    set its hyperparameters by then but not its best-score record. *)
Theorem unknown_architecture_exits `{Backend} (a : DQN_agent.t) (g : sys)
    (target_update batch_size learn_frequency : Z) :
  DQN_Model.nntype (DQN_agent.model a) ≠ "dense" →
  DQN_Model.nntype (DQN_agent.model a) ≠ "conv" →
  DQN_Model.init_networks (DQN_agent.model a, g) =
    (Raise (SystemExit 1), (DQN_agent.model a, g)) ∧
  DQN_agent.__init__ target_update batch_size learn_frequency (a, g) =
    (Raise (SystemExit 1),
     (DQN_agent.mk (DQN_agent.model a) (DQN_agent.env_train a)
        (DQN_agent.env_name a) (DQN_agent.agent_step a) batch_size
        target_update learn_frequency [] [] [] (DQN_agent.max_avg_score a), g)).
Proof.
  intros Hd Hc.
  pose proof (init_networks_unknown (DQN_agent.model a) g Hd Hc) as Hinit.
  split; [done|].
  unfold DQN_agent.__init__, DQN_agent.on_model.
  cbv [mbind M_bind set_self modify zoom]. cbn [fst snd DQN_agent.model].
  rewrite Hinit. reflexivity.
Qed.

Lemma unknown_architecture_exits_witness :
  DQN_Model.init_networks (toy_model_unknown, Sys 0 ∅ []) =
    (Raise (SystemExit 1), (toy_model_unknown, Sys 0 ∅ [])) ∧
  DQN_agent.__init__ 4 2 1 (toy_agent_unknown, Sys 0 ∅ []) =
    (Raise (SystemExit 1),
     (DQN_agent.mk toy_model_unknown 0%nat "toy" 0 2 4 1 [] [] [] 0, Sys 0 ∅ [])).
Proof.
  apply (unknown_architecture_exits toy_agent_unknown (Sys 0 ∅ []) 4 2 1);
    discriminate.
Defined.

(** X3: on a model whose networks were never set up ([init_networks] has
    not run), [replace_target_network], [get_action], [load_save] and
    [learn] all raise [AttributeError] and leave the model as it is. *)
Theorem networks_needed `{Backend} (m : DQN_Model.t) (g : sys)
    (st : tensor) (path : string) (batch : list transition) :
  DQN_Model.Q_eval m = None →
  DQN_Model.replace_target_network (m, g) = (Raise AttributeError, (m, g)) ∧
  DQN_Model.get_action st (m, g) = (Raise AttributeError, (m, g)) ∧
  DQN_Model.load_save path (m, g) = (Raise AttributeError, (m, g)) ∧
  DQN_Model.learn batch (m, g) =
    (Raise AttributeError,
     (m, Sys (rng g) (fs g) (EvLearn (DQN_Model.replay_memory m) batch :: trace g))).
Proof.
  intros Hn.
  unfold DQN_Model.replace_target_network, DQN_Model.get_action,
    DQN_Model.load_save, DQN_Model.learn, DQN_Model.get_Q_eval.
  cbv [mbind M_bind self_ gets of_option mret M_ret emit modify raise].
  cbn [fst snd]. rewrite Hn. done.
Qed.

Lemma networks_needed_witness :
  let m := toy_model 100 in
  let g := Sys 0 ∅ [] in
  DQN_Model.replace_target_network (m, g) = (Raise AttributeError, (m, g)) ∧
  DQN_Model.get_action toy_obs (m, g) = (Raise AttributeError, (m, g)) ∧
  DQN_Model.load_save "drl_api/saves/toy-DQN" (m, g)
    = (Raise AttributeError, (m, g)) ∧
  DQN_Model.learn toy_batch (m, g) =
    (Raise AttributeError,
     (m, Sys 0 ∅ [EvLearn (DQN_Model.replay_memory m) toy_batch])).
Proof.
  intros m g.
  apply (networks_needed m g toy_obs "drl_api/saves/toy-DQN" toy_batch).
  reflexivity.
Defined.

(** X4: a call of [learn] that raises has not changed a parameter of either
    network: whatever fails (an action out of range, an empty row of action
    values, a missing network) fails before the optimizer step. *)
Theorem learn_failure_keeps_parameters `{Backend} (batch : list transition)
    (m : DQN_Model.t) (g : sys) (e : exn) (s' : DQN_Model.t * sys) :
  DQN_Model.learn batch (m, g) = (Raise e, s') →
  _DQN.params <$> DQN_Model.Q_eval s'.1 = _DQN.params <$> DQN_Model.Q_eval m ∧
  _DQN.params <$> DQN_Model.Q_target s'.1 = _DQN.params <$> DQN_Model.Q_target m.
Proof.
  unfold DQN_Model.learn, DQN_Model.get_Q_eval, DQN_Model.get_Q_target,
    DQN_Model.process_batch.
  mrun; intros; simplify_eq; simpl;
    repeat match goal with
           | Hq : DQN_Model.Q_eval _ = _ |- _ => rewrite Hq; clear Hq
           | Hq : DQN_Model.Q_target _ = _ |- _ => rewrite Hq; clear Hq
           end;
    done.
Qed.

Lemma learn_failure_keeps_parameters_witness :
  let s := (toy_model_with_networks, Sys 0 ∅ []) in
  DQN_Model.learn toy_bad_batch s = (Raise IndexError, (DQN_Model.learn toy_bad_batch s).2) ∧
  _DQN.params <$> DQN_Model.Q_eval (DQN_Model.learn toy_bad_batch s).2.1 =
    Some (_DQN.params (toy_net "eval" 0)) ∧
  _DQN.params <$> DQN_Model.Q_target (DQN_Model.learn toy_bad_batch s).2.1 =
    Some (_DQN.params (toy_net "target" 6)).
Proof.
  intros s.
  assert (Hrun : DQN_Model.learn toy_bad_batch s =
                   (Raise IndexError, (DQN_Model.learn toy_bad_batch s).2)).
  { vm_compute. reflexivity. }
  split; [exact Hrun|].
  apply (learn_failure_keeps_parameters toy_bad_batch toy_model_with_networks
           (Sys 0 ∅ []) IndexError _ Hrun).
Defined.

(** What a load leaves in a parameter. *)
Lemma loaded_params_lookup (sd ps : gmap string tensor) (key : string) :
  _DQN.loaded_params sd ps !! key =
    match ps !! key, sd !! key with
    | Some p, Some v => Some (if decide (shape v = shape p) then v else p)
    | Some p, None => Some p
    | None, _ => None
    end.
Proof.
  unfold _DQN.loaded_params. rewrite map_lookup_imap.
  destruct (ps !! key) as [p|]; simpl; [|done]. by destruct (sd !! key).
Qed.

(** X5: on a model whose two networks have parameters of the same names
    and shapes, [load_save] raises in two ways only.  With no file at
    [path] it raises [FileNotFoundError] and nothing has changed.  With a
    checkpoint of other names or shapes it raises [RuntimeError] and is not
    atomic: the eval network has taken every tensor of the checkpoint that
    has the name and the shape of one of its parameters, while its other
    parameters, the target network and all the rest are as before. *)
Theorem load_save_failure (path : string) (m : DQN_Model.t) (g : sys)
    (e t : _DQN.t) (x : exn) (s' : DQN_Model.t * sys) :
  DQN_Model.Q_eval m = Some e → DQN_Model.Q_target m = Some t →
  shape <$> _DQN.params e = shape <$> _DQN.params t →
  DQN_Model.load_save path (m, g) = (Raise x, s') →
  (x = FileNotFoundError ∧ fs g !! path = None ∧ s' = (m, g)) ∨
  (x = RuntimeError ∧
   ∃ sd e',
     fs g !! path = Some sd ∧ shape <$> sd ≠ shape <$> _DQN.params e ∧
     s' = (DQN_Model.set_Q_eval (Some e') m, g) ∧
     _DQN.set_params (_DQN.params e) e' = e ∧
     ∀ key p, _DQN.params e !! key = Some p →
       _DQN.params e' !! key =
         Some match sd !! key with
              | Some v => if decide (shape v = shape p) then v else p
              | None => p
              end).
Proof.
  intros He Ht Hs.
  unfold DQN_Model.load_save, DQN_Model.get_Q_eval, DQN_Model.get_Q_target.
  cbv [mbind M_bind self_ gets of_option mret M_ret torch_load set_self modify
       of_outcome].
  cbn [fst snd]. rewrite He. cbn [fst snd of_option mret M_ret].
  destruct (fs g !! path) as [sd|] eqn:Hsd; cbn [fst snd].
  2:{ intros [= <- <-]. by left. }
  unfold _DQN.load_state_dict at 1.
  destruct (decide (shape <$> sd = shape <$> _DQN.params e)) as [Hsh|Hsh];
    cbn [fst snd DQN_Model.Q_target DQN_Model.set_Q_eval].
  - rewrite Ht. cbn [fst snd fs]. rewrite Hsd. cbn [fst snd].
    rewrite load_state_dict_ok by congruence. discriminate.
  - intros [= <- <-]. right. split; [done|].
    exists sd, (_DQN.set_params (_DQN.loaded_params sd (_DQN.params e)) e).
    split; [done|]. split; [done|]. split; [done|]. split; [by destruct e|].
    intros key p Hp. cbn [_DQN.params _DQN.set_params].
    rewrite loaded_params_lookup, Hp. by destruct (sd !! key).
Qed.

Lemma load_save_failure_witness :
  let s := (toy_model_with_networks, toy_sys_with_partial_checkpoint) in
  ∃ s',
    DQN_Model.load_save "drl_api/saves/toy-DQN" s = (Raise RuntimeError, s') ∧
    ((RuntimeError = FileNotFoundError ∧
      fs toy_sys_with_partial_checkpoint !! "drl_api/saves/toy-DQN" = None ∧
      s' = s) ∨
     (RuntimeError = RuntimeError ∧
      ∃ sd e',
        fs toy_sys_with_partial_checkpoint !! "drl_api/saves/toy-DQN" = Some sd ∧
        shape <$> sd ≠ shape <$> _DQN.params (toy_net "eval" 0) ∧
        s' = (DQN_Model.set_Q_eval (Some e') toy_model_with_networks,
              toy_sys_with_partial_checkpoint) ∧
        _DQN.set_params (_DQN.params (toy_net "eval" 0)) e' = toy_net "eval" 0 ∧
        ∀ key p, _DQN.params (toy_net "eval" 0) !! key = Some p →
          _DQN.params e' !! key =
            Some match sd !! key with
                 | Some v => if decide (shape v = shape p) then v else p
                 | None => p
                 end)).
Proof.
  intros s.
  assert (Hrun : DQN_Model.load_save "drl_api/saves/toy-DQN" s =
            (Raise RuntimeError,
             (DQN_Model.load_save "drl_api/saves/toy-DQN" s).2)).
  { vm_compute. reflexivity. }
  eexists. split; [exact Hrun|].
  apply (load_save_failure "drl_api/saves/toy-DQN" toy_model_with_networks
           toy_sys_with_partial_checkpoint (toy_net "eval" 0)
           (toy_net "target" 6) RuntimeError _
           eq_refl eq_refl toy_networks_same_shapes Hrun).
Defined.

(** At the small instance the failed load has overwritten the bias it could
    and left the target network behind. *)
Example load_save_failure_desynchronizes :
  let s' := (DQN_Model.load_save "drl_api/saves/toy-DQN"
               (toy_model_with_networks, toy_sys_with_partial_checkpoint)).2 in
  (_DQN.params <$> DQN_Model.Q_eval s'.1) ≫= (.!! "fc.4.bias") =
    Some (Tensor [2%nat] (λ _, 7)) ∧
  DQN_Model.Q_target s'.1 = Some (toy_net "target" 6).
Proof. vm_compute. done. Qed.

(** X6: once [init_networks] has returned, [forward] never reaches its
    [exit(1)]: on either network it returns an output or raises the
    [RuntimeError] of a layer that does not accept the input.  The two
    networks compute the same function: on every input, [forward] gives the
    same result on the target network as on the eval network. *)
Theorem forward_after_init_networks `{Backend} (m m' : DQN_Model.t) (g g' : sys) :
  DQN_Model.init_networks (m, g) = (Ok tt, (m', g')) →
  ∃ e t,
    DQN_Model.Q_eval m' = Some e ∧ DQN_Model.Q_target m' = Some t ∧
    ∀ x, _DQN.forward x t = _DQN.forward x e ∧
         ∀ err, _DQN.forward x e = inl err → err = RuntimeError.
Proof.
  intros Hrun.
  destruct (init_networks_ok_inv _ _ _ _ Hrun) as [Hk (conv & fc & Harch)].
  destruct (init_networks_run m g conv fc Harch) as (m1 & Hrun1 & He & Ht & _).
  rewrite Hrun in Hrun1. injection Hrun1 as <- _.
  eexists _, _. split; [exact He|]. split; [exact Ht|].
  intros x. split; [reflexivity|].
  intros err. unfold _DQN.forward, _DQN.init_weights.
  cbn [_DQN.nntype _DQN.set_params _DQN.fc _DQN.conv _DQN.params].
  destruct Hk as [-> | ->]; simpl; repeat case_match; congruence.
Qed.

Lemma toy_init_networks_run :
  DQN_Model.init_networks (toy_model 100, Sys 0 ∅ []) =
    (Ok tt, (toy_initialised.1, toy_initialised.2)).
Proof. vm_compute. reflexivity. Qed.

Lemma forward_after_init_networks_witness :
  ∃ e t,
    DQN_Model.Q_eval toy_initialised.1 = Some e ∧
    DQN_Model.Q_target toy_initialised.1 = Some t ∧
    ∀ x, _DQN.forward x t = _DQN.forward x e ∧
         ∀ err, _DQN.forward x e = inl err → err = RuntimeError.
Proof.
  apply (forward_after_init_networks (toy_model 100) toy_initialised.1
           (Sys 0 ∅ []) toy_initialised.2).
  exact toy_init_networks_run.
Defined.

(** ** Biases after initialisation *)

Section bias.
Context `{Backend}.

Lemma architecture_keys_NoDup (kind : string) (i o : nat) (conv fc : list layer) :
  _DQN.architecture kind i o 2048 = inr (conv, fc) →
  NoDup (spec_key <$> _DQN.param_specs conv fc).
Proof.
  unfold _DQN.architecture.
  destruct (decide (kind = "dense")); [intros [= <- <-]|].
  { apply (bool_decide_unpack _). vm_compute. exact I. }
  destruct (decide (kind = "conv")); [intros [= <- <-]|done].
  apply (bool_decide_unpack _). vm_compute. exact I.
Qed.

Lemma init_step_other (seed : nat) (key : string)
    (l : list (nat * (string * list nat * param_kind))) (ps : gmap string tensor) :
  key ∉ (λ x, spec_key x.2) <$> l →
  foldr (λ '(k, (key, _, kind)) ps,
           match kind with
           | Weight => alter (λ w, rand_tensor (seed + k) (shape w)) key ps
           | Bias => alter (λ b, tensor_fill b 0.01%Q) key ps
           end) ps l !! key = ps !! key.
Proof.
  induction l as [|[k [[key' shp] kind]] l IH]; [done|].
  rewrite fmap_cons, not_elem_of_cons. intros [Hne Hnin]. simpl in Hne.
  simpl. destruct kind; rewrite lookup_alter_ne by done; by apply IH.
Qed.

Lemma init_step_bias (seed : nat) (key : string) (shp : list nat) (k : nat)
    (l : list (nat * (string * list nat * param_kind))) (ps : gmap string tensor) :
  NoDup ((λ x, spec_key x.2) <$> l) →
  (k, (key, shp, Bias)) ∈ l →
  foldr (λ '(k, (key, _, kind)) ps,
           match kind with
           | Weight => alter (λ w, rand_tensor (seed + k) (shape w)) key ps
           | Bias => alter (λ b, tensor_fill b 0.01%Q) key ps
           end) ps l !! key = (λ b, tensor_fill b 0.01%Q) <$> ps !! key.
Proof.
  induction l as [|[k' [[key' shp'] kind]] l IH]; [by intros _ ?%elem_of_nil|].
  rewrite fmap_cons, NoDup_cons. intros [Hnin Hnd]. simpl in Hnin.
  rewrite elem_of_cons. intros [Heq|Hin].
  - injection Heq as ? ? ? ?; subst. simpl.
    rewrite lookup_alter_eq. by rewrite init_step_other.
  - assert (key' ≠ key) as Hne.
    { intros ->. apply Hnin. apply list_elem_of_fmap. by exists (k, (key, shp, Bias)). }
    simpl. destruct kind; rewrite lookup_alter_ne by done; by apply IH.
Qed.

Lemma indexed_keys (specs : list (string * list nat * param_kind)) :
  (λ x : nat * (string * list nat * param_kind), spec_key x.2)
    <$> imap (λ k spec, (k, spec)) specs = spec_key <$> specs.
Proof.
  rewrite fmap_imap. rewrite <- (imap_const spec_key). by apply imap_ext.
Qed.

Lemma init_weights_bias (seed : nat) (q : _DQN.t) (key : string) (shp : list nat)
    (b : tensor) :
  NoDup (spec_key <$> _DQN.param_specs (_DQN.conv q) (_DQN.fc q)) →
  (key, shp, Bias) ∈ _DQN.param_specs (_DQN.conv q) (_DQN.fc q) →
  _DQN.params q !! key = Some b →
  _DQN.params (_DQN.init_weights seed q) !! key = Some (tensor_fill b 0.01).
Proof.
  intros Hnd Hin Hb. unfold _DQN.init_weights. cbn [_DQN.params _DQN.set_params].
  apply list_elem_of_lookup in Hin as [k Hk].
  rewrite (init_step_bias seed key shp k).
  - by rewrite Hb.
  - by rewrite indexed_keys.
  - apply list_elem_of_lookup. exists k. by rewrite list_lookup_imap, Hk.
Qed.

Lemma fresh_params_lookup (seed : nat) (specs : list (string * list nat * param_kind))
    (key : string) (shp : list nat) (kind : param_kind) :
  NoDup (spec_key <$> specs) → (key, shp, kind) ∈ specs →
  ∃ b, _DQN.fresh_params seed specs !! key = Some b ∧ shape b = shp.
Proof.
  intros Hnd Hin.
  assert ((shape <$> _DQN.fresh_params seed specs) !! key = Some shp) as Hsh.
  { rewrite fresh_params_shape. apply elem_of_list_to_map_1.
    - rewrite <- list_fmap_compose.
      erewrite list_fmap_ext; [exact Hnd|]. by intros i [[??]?] _.
    - apply list_elem_of_fmap. by exists (key, shp, kind). }
  rewrite lookup_fmap in Hsh.
  destruct (_DQN.fresh_params seed specs !! key) as [b|]; [|done].
  exists b. split; [done|]. by injection Hsh.
Qed.

End bias.

(** X7: after [init_networks] has returned, every bias of the architecture
    is the constant 0.01 in the eval network and in the target network
    alike: [init_weights] fills the biases of the eval network and the
    final [replace_target_network] copies them. *)
Theorem biases_after_init_networks `{Backend} (m m' : DQN_Model.t) (g g' : sys) :
  DQN_Model.init_networks (m, g) = (Ok tt, (m', g')) →
  ∃ e t,
    DQN_Model.Q_eval m' = Some e ∧ DQN_Model.Q_target m' = Some t ∧
    ∀ key shp, (key, shp, Bias) ∈ _DQN.param_specs (_DQN.conv e) (_DQN.fc e) →
      _DQN.params e !! key = Some (Tensor shp (λ _, 0.01)) ∧
      _DQN.params t !! key = Some (Tensor shp (λ _, 0.01)).
Proof.
  intros Hrun.
  destruct (init_networks_ok_inv _ _ _ _ Hrun) as [Hk (conv & fc & Harch)].
  destruct (init_networks_run m g conv fc Harch) as (m1 & Hrun1 & He & Ht & _).
  rewrite Hrun in Hrun1. injection Hrun1 as <- _.
  eexists _, _. split; [exact He|]. split; [exact Ht|].
  intros key shp Hin. cbn [_DQN.params _DQN.set_params].
  assert (Hnd := architecture_keys_NoDup _ _ _ _ _ Harch).
  unfold _DQN.init_weights in Hin. cbn [_DQN.conv _DQN.fc _DQN.set_params] in Hin.
  destruct (fresh_params_lookup (rng g) _ key shp Bias Hnd Hin) as (b & Hb & Hshape).
  assert (_DQN.params
            (_DQN.init_weights (rng g + length (_DQN.param_specs conv fc)
                                + length (_DQN.param_specs conv fc))
               (_DQN.mk (DQN_Model.in_dims m) (DQN_Model.n_actions m) 2048
                  (DQN_Model.nntype m) conv fc "eval" (DQN_Model.lr m)
                  (DQN_Model.gpu m)
                  (_DQN.fresh_params (rng g) (_DQN.param_specs conv fc)) ∅ ∅))
            !! key = Some (Tensor shp (λ _, 0.01))) as Hkey.
  { erewrite init_weights_bias; [|exact Hnd|exact Hin|exact Hb].
    unfold tensor_fill. by rewrite Hshape. }
  done.
Qed.

(** ** Greedy actions *)

Lemma argmax_from_spec (qs pre : list Q) (best : Q) (ibest : nat) :
  pre !! ibest = Some best →
  (∀ (j : nat) q, pre !! j = Some q → q <= best ∧ ((j < ibest)%nat → q < best)) →
  ∃ (r : nat) qr,
    argmax_from best (Z.of_nat ibest) (Z.of_nat (length pre)) qs = Z.of_nat r ∧
    (pre ++ qs) !! r = Some qr ∧
    ∀ (j : nat) q, (pre ++ qs) !! j = Some q → q <= qr ∧ ((j < r)%nat → q < qr).
Proof.
  revert pre best ibest. induction qs as [|q qs IH]; intros pre best ibest Hb Hall.
  - exists ibest, best. rewrite app_nil_r. done.
  - simpl. pose proof (lookup_lt_Some _ _ _ Hb) as Hlt.
    replace (Z.of_nat (length pre) + 1)%Z with (Z.of_nat (length (pre ++ [q])))
      by (rewrite length_app; simpl; lia).
    rewrite (cons_middle q pre qs), app_assoc.
    destruct (Qgtb q best) eqn:Hq.
    + apply Qgtb_true in Hq.
      apply (IH (pre ++ [q]) q (length pre)).
      * by rewrite lookup_app_r, Nat.sub_diag.
      * intros j x Hj. destruct (decide (j < length pre)%nat) as [Hjl|Hjl].
        -- rewrite lookup_app_l in Hj by done. destruct (Hall j x Hj). split; intros; lra.
        -- rewrite lookup_app_r in Hj by lia.
           destruct (j - length pre)%nat eqn:E; [|by destruct n].
           injection Hj as <-. split; [lra | lia].
    + apply Qgtb_false in Hq.
      apply (IH (pre ++ [q]) best ibest).
      * by rewrite lookup_app_l.
      * intros j x Hj. destruct (decide (j < length pre)%nat) as [Hjl|Hjl].
        -- rewrite lookup_app_l in Hj by done. by apply Hall.
        -- rewrite lookup_app_r in Hj by lia.
           destruct (j - length pre)%nat eqn:E; [|by destruct n].
           injection Hj as <-. split; [done | lia].
Qed.

Lemma argmax_spec (qs : list Q) (i : Z) :
  argmax qs = inr i →
  ∃ qi, (0 ≤ i)%Z ∧ qs !! Z.to_nat i = Some qi ∧
        ∀ (j : nat) q, qs !! j = Some q → q <= qi ∧ ((j < Z.to_nat i)%nat → q < qi).
Proof.
  destruct qs as [|q qs]; [done|]. simpl. intros [= <-].
  destruct (argmax_from_spec qs [q] q 0) as (r & qr & Hr & Hqr & Hall).
  - done.
  - intros [|j] x Hj; [|done]. injection Hj as <-. split; [lra | lia].
  - change (argmax_from q 0 1 qs = Z.of_nat r) in Hr. rewrite Hr. exists qr. rewrite Nat2Z.id.
    split; [lia|]. split; done.
Qed.

Lemma biases_after_init_networks_witness :
  ∃ e t,
    DQN_Model.Q_eval toy_initialised.1 = Some e ∧
    DQN_Model.Q_target toy_initialised.1 = Some t ∧
    ∀ key shp, (key, shp, Bias) ∈ _DQN.param_specs (_DQN.conv e) (_DQN.fc e) →
      _DQN.params e !! key = Some (Tensor shp (λ _, 0.01)) ∧
      _DQN.params t !! key = Some (Tensor shp (λ _, 0.01)).
Proof.
  apply (biases_after_init_networks (toy_model 100) toy_initialised.1
           (Sys 0 ∅ []) toy_initialised.2).
  exact toy_init_networks_run.
Defined.

(** X8: [get_action] changes nothing, and the action it returns is the
    index of a largest action value computed by the eval network for the
    given state, the first such index when several values tie. *)
Theorem get_action_greedy `{Backend} (st : tensor) (m : DQN_Model.t) (g : sys) :
  (DQN_Model.get_action st (m, g)).2 = (m, g) ∧
  ∀ i, (DQN_Model.get_action st (m, g)).1 = Ok i →
    ∃ e out qi,
      DQN_Model.Q_eval m = Some e ∧ _DQN.forward st e = inr out ∧
      (0 ≤ i)%Z ∧ concat (rows out) !! Z.to_nat i = Some qi ∧
      ∀ (j : nat) q, concat (rows out) !! j = Some q →
        q <= qi ∧ ((j < Z.to_nat i)%nat → q < qi).
Proof.
  unfold DQN_Model.get_action, DQN_Model.get_Q_eval.
  cbv [mbind M_bind self_ gets of_option of_sum mret M_ret raise]. cbn [fst snd].
  destruct (DQN_Model.Q_eval m) as [e|] eqn:He; simpl;
    [|split; [done | intros i Hi; discriminate Hi]].
  destruct (_DQN.forward st e) as [x|out] eqn:Hf; simpl;
    [split; [done | intros i Hi; discriminate Hi]|].
  destruct (argmax (concat (rows out))) as [x|i] eqn:Ha; simpl;
    [split; [done | intros i Hi; discriminate Hi]|].
  split; [done|]. intros ? [= <-].
  destruct (argmax_spec _ _ Ha) as (qi & Hi & Hqi & Hall).
  by exists e, out, qi.
Qed.

(** ** The best evaluation score *)

Section record.
Context `{Backend}.

Lemma eval_step_record (avg_score : Q) (s : DQN_agent.t * sys) :
  DQN_agent.max_avg_score (DQN_agent.eval_step avg_score s).2.1 ==
    (if Qgtb avg_score (DQN_agent.max_avg_score s.1) then avg_score
     else DQN_agent.max_avg_score s.1).
Proof.
  destruct s as [a g]. unfold DQN_agent.eval_step, DQN_agent.on_model,
    DQN_Model.get_Q_eval, save_model.
  mrun; reflexivity.
Qed.

Lemma eval_step_keeps_at_least (c : Q) (avg_score : Q) :
  keeps (λ s : DQN_agent.t * sys, c <= DQN_agent.max_avg_score s.1)
        (DQN_agent.eval_step avg_score).
Proof.
  intros s Hs.
  pose proof (eval_step_record avg_score s) as Hr.
  assert (c <= DQN_agent.max_avg_score (DQN_agent.eval_step avg_score s).2.1).
  { rewrite Hr. destruct (Qgtb _ _) eqn:E; [|done]. apply Qgtb_true in E. lra. }
  by destruct (DQN_agent.eval_step avg_score s) as [[?|?] ?].
Qed.

Lemma run_at_least (c : Q) (s0 s : DQN_agent.t * sys) :
  c <= DQN_agent.max_avg_score s0.1 → run s0 s → c <= DQN_agent.max_avg_score s.1.
Proof.
  intros H0.
  induction 1 as [|render fuel s _ IH|avg s _ IH|path s _ IH
                  |render fuel s _ IH|s s' _ IH Hplay]; [done|..].
  - apply (keeps_run (λ s : DQN_agent.t * sys, c <= DQN_agent.max_avg_score s.1));
      [|done]. by apply keeps_train_step.
  - apply (keeps_run (λ s : DQN_agent.t * sys, c <= DQN_agent.max_avg_score s.1));
      [|done]. apply eval_step_keeps_at_least.
  - apply (keeps_run (λ s : DQN_agent.t * sys, c <= DQN_agent.max_avg_score s.1));
      [|done]. by apply keeps_load_save.
  - apply (keeps_run (λ s : DQN_agent.t * sys, c <= DQN_agent.max_avg_score s.1));
      [|done]. by apply keeps_train_episode.
  - by apply (keeps_played
                (λ s : DQN_agent.t * sys, c <= DQN_agent.max_avg_score s.1))
      in Hplay.
Qed.

End record.

(** X9: the best score the agent records never goes down: over any
    sequence of training episodes (with or without the bookkeeping of
    [train]), plays, evaluations and checkpoint loads it is at least what
    it was at the start, and after an evaluation it is at least both its
    previous value and the evaluated mean. *)
Theorem best_score_never_decreases `{Backend} (s0 s : DQN_agent.t * sys)
    (avg_score : Q) :
  run s0 s →
  DQN_agent.max_avg_score s0.1 <= DQN_agent.max_avg_score s.1 ∧
  DQN_agent.max_avg_score s.1 <=
    DQN_agent.max_avg_score (DQN_agent.eval_step avg_score s).2.1 ∧
  avg_score <= DQN_agent.max_avg_score (DQN_agent.eval_step avg_score s).2.1.
Proof.
  intros Hrun. split.
  { apply (run_at_least _ s0 s); [lra | done]. }
  rewrite eval_step_record.
  destruct (Qgtb _ _) eqn:E.
  - apply Qgtb_true in E. split; lra.
  - apply Qgtb_false in E. split; lra.
Qed.

Lemma best_score_never_decreases_witness :
  let s0 := (toy_agent 2).2 in
  let s := (DQN_agent.train_step false 3 s0).2 in
  DQN_agent.max_avg_score s0.1 <= DQN_agent.max_avg_score s.1 ∧
  DQN_agent.max_avg_score s.1 <=
    DQN_agent.max_avg_score (DQN_agent.eval_step 1 s).2.1 ∧
  1 <= DQN_agent.max_avg_score (DQN_agent.eval_step 1 s).2.1.
Proof.
  intros s0 s. apply (best_score_never_decreases s0 s 1).
  apply run_train_step, run_init.
Defined.

(** X10: choosing an action at evaluation time changes nothing of the
    agent, of the files or of the trace; it only consumes random numbers.
    When the first draw exceeds the floor of the scheduler, that draw is
    the only one and the result is that of [get_action] on the state in a
    batch of one.  Otherwise the action is random: with no action to choose
    from, [np.random.choice] raises [ValueError] and no second number is
    drawn; else a second number is drawn and gives the action. *)
Theorem act_eval_only_draws `{Backend} (st : tensor) (a : DQN_agent.t) (g : sys) :
  let floor := _eps.min_eps (DQN_Model.eps (DQN_agent.model a)) in
  let n_actions := DQN_Model.n_actions (DQN_agent.model a) in
  let drawn (n : nat) := Sys (rng g + n) (fs g) (trace g) in
  DQN_agent.act_eval st (a, g) =
    if Qgtb (uniform (rng g)) floor then
      ((DQN_Model.get_action (stack [st]) (DQN_agent.model a, drawn 1%nat)).1,
       (a, drawn 1%nat))
    else if decide (n_actions = 0%nat) then (Raise ValueError, (a, drawn 1%nat))
    else (Ok (randint (rng g + 1) `mod` Z.of_nat n_actions)%Z, (a, drawn 2%nat)).
Proof.
  destruct a as [mdl env name step bs tu lf sc av eh best].
  destruct mdl as [ms rm gm na ind ep lr gpu kind nm dn qe qt].
  cbv zeta.
  unfold DQN_agent.act_eval, DQN_agent.on_eps, DQN_agent.on_model,
    DQN_agent.random_choice, _eps.get_min_eps, DQN_Model.get_action,
    DQN_Model.get_Q_eval.
  mrun; try done; by rewrite <- Nat.add_assoc.
Qed.

(** ** Saving and loading *)

Lemma load_save_run (path : string) (m : DQN_Model.t) (g : sys) (e t : _DQN.t)
    (sd : gmap string tensor) :
  DQN_Model.Q_eval m = Some e → DQN_Model.Q_target m = Some t →
  fs g !! path = Some sd →
  shape <$> sd = shape <$> _DQN.params e →
  shape <$> sd = shape <$> _DQN.params t →
  DQN_Model.load_save path (m, g) =
    (Ok tt, (DQN_Model.set_Q_target (Some (_DQN.set_params sd t))
               (DQN_Model.set_Q_eval (Some (_DQN.set_params sd e)) m), g)).
Proof.
  intros He Ht Hsd Hse Hst.
  unfold DQN_Model.load_save, DQN_Model.get_Q_eval, DQN_Model.get_Q_target.
  cbv [mbind M_bind self_ gets of_option mret M_ret torch_load set_self modify].
  repeat (simpl; first [ rewrite He | rewrite Ht | rewrite Hsd
                       | rewrite decide_True by done
                       | rewrite loaded_params_all by done ]).
  done.
Qed.

Lemma eval_step_better_run `{Backend} (avg_score : Q) (a : DQN_agent.t) (g : sys)
    (q_eval : _DQN.t) :
  DQN_Model.Q_eval (DQN_agent.model a) = Some q_eval →
  DQN_agent.max_avg_score a < avg_score →
  let path := save_path "drl_api/saves" (DQN_agent.env_name a)
                        (DQN_Model.name (DQN_agent.model a)) in
  DQN_agent.eval_step avg_score (a, g) =
    (Ok tt, (DQN_agent.set_max_avg_score avg_score a,
             Sys (rng g) (<[path := _DQN.params q_eval]> (fs g))
                 (EvSave path (_DQN.params q_eval) :: trace g))).
Proof.
  intros He Hlt path. apply Qgtb_true in Hlt.
  unfold DQN_agent.eval_step, DQN_agent.on_model, DQN_Model.get_Q_eval, save_model.
  cbv [mbind M_bind self_ gets of_option mret M_ret set_self modify zoom emit].
  simpl. rewrite Hlt. simpl. rewrite He. simpl. by destruct a.
Qed.

(** X11: an evaluation that beats the record, followed by [load_save] of
    the path the evaluation saved to, succeeds on an agent whose two
    networks have parameters of the same names and shapes: the checkpoint
    holds the eval parameters, both networks hold them afterwards, and the
    record is the evaluated mean. *)
Theorem checkpoint_round_trip `{Backend} (avg_score : Q) (a : DQN_agent.t)
    (g : sys) (e t : _DQN.t) :
  DQN_Model.Q_eval (DQN_agent.model a) = Some e →
  DQN_Model.Q_target (DQN_agent.model a) = Some t →
  shape <$> _DQN.params e = shape <$> _DQN.params t →
  DQN_agent.max_avg_score a < avg_score →
  let path := save_path "drl_api/saves" (DQN_agent.env_name a)
                        (DQN_Model.name (DQN_agent.model a)) in
  ∃ a' g',
    (DQN_agent.eval_step avg_score;; DQN_agent.load_save path) (a, g)
      = (Ok tt, (a', g')) ∧
    fs g' !! path = Some (_DQN.params e) ∧
    _DQN.params <$> DQN_Model.Q_eval (DQN_agent.model a') = Some (_DQN.params e) ∧
    _DQN.params <$> DQN_Model.Q_target (DQN_agent.model a') = Some (_DQN.params e) ∧
    DQN_agent.max_avg_score a' = avg_score.
Proof.
  intros He Ht Hs Hlt path.
  unfold mbind at 1, M_bind at 1.
  rewrite (eval_step_better_run avg_score a g e He Hlt). fold path.
  unfold DQN_agent.load_save, DQN_agent.on_model, zoom.
  cbn [fst snd DQN_agent.model DQN_agent.set_max_avg_score].
  erewrite (load_save_run path (DQN_agent.model a) _ e t (_DQN.params e));
    [ | done | done | cbn [fs]; by rewrite lookup_insert_eq | done | done ].
  eexists _, _. split; [reflexivity|]. cbn. split; [by rewrite lookup_insert_eq|]. done.
Qed.

Lemma checkpoint_round_trip_witness :
  ∃ a' g',
    (DQN_agent.eval_step 1;; DQN_agent.load_save "drl_api/saves/toy-DQN")
      (toy_agent_with_networks, Sys 0 ∅ []) = (Ok tt, (a', g')) ∧
    fs g' !! "drl_api/saves/toy-DQN" = Some (_DQN.params (toy_net "eval" 0)) ∧
    _DQN.params <$> DQN_Model.Q_eval (DQN_agent.model a') =
      Some (_DQN.params (toy_net "eval" 0)) ∧
    _DQN.params <$> DQN_Model.Q_target (DQN_agent.model a') =
      Some (_DQN.params (toy_net "eval" 0)) ∧
    DQN_agent.max_avg_score a' = 1.
Proof.
  apply (checkpoint_round_trip 1 toy_agent_with_networks (Sys 0 ∅ [])
           (toy_net "eval" 0) (toy_net "target" 6));
    [reflexivity | reflexivity | exact toy_networks_same_shapes | reflexivity].
Defined.

(** ** What a training episode leaves alone *)

(** X12: a training episode, whether it returns or raises, leaves the
    agent's hyperparameters ([batch_size], [target_update],
    [learn_frequency]), its environment name, its score lists and its
    best-score record as they were. *)
Theorem train_step_keeps_settings `{Backend} (render : bool) (fuel : nat)
    (a : DQN_agent.t) (g : sys) :
  settings (DQN_agent.train_step render fuel (a, g)).2.1 = settings a.
Proof.
  apply (keeps_run (λ s : DQN_agent.t * sys, settings s.1 = settings a)
                   (DQN_agent.train_step render fuel) (a, g)); [|done].
  apply keeps_train_step; intros; done.
Qed.

(** ** Exceptions of the code and the cut-off of the model *)

Lemma fuel_free_py_mod (a b : Z) : fuel_free (py_mod a b).
Proof. unfold fuel_free, py_mod. by case_decide. Qed.

Lemma fuel_free_py_index {A} (row : list A) (a : Z) : fuel_free (py_index row a).
Proof. unfold fuel_free, py_index. repeat case_match; done. Qed.

Lemma fuel_free_gather (out : list (list Q)) (actions : list Z) :
  fuel_free (gather out actions).
Proof.
  unfold fuel_free. revert out.
  induction actions as [|a actions IH]; intros [|row out]; simpl;
    [discriminate..|].
  pose proof (fuel_free_py_index row a) as Hi. specialize (IH out).
  unfold fuel_free in Hi.
  destruct (py_index row a) as [e|q]; destruct (gather out actions) as [e'|qs];
    congruence.
Qed.

Lemma fuel_free_max_dim1 (q_next : list (list Q)) : fuel_free (max_dim1 q_next).
Proof.
  unfold fuel_free. induction q_next as [|row q_next IH]; [done|]. simpl.
  destruct row as [|q row]; simpl; destruct (max_dim1 q_next) as [e|ms];
    congruence.
Qed.

Lemma fuel_free_q_target_of (gamma : Q) (rewards : list Q) (terminals : list bool)
    (q_next : list (list Q)) :
  fuel_free (DQN_Model.q_target_of gamma rewards terminals q_next).
Proof.
  unfold fuel_free, DQN_Model.q_target_of, mask_rows, bootstrap.
  case_decide; [|done].
  match goal with |- context [max_dim1 ?x] =>
    pose proof (fuel_free_max_dim1 x) as Hm; destruct (max_dim1 x) end;
    unfold fuel_free in Hm; [congruence|]. by case_decide.
Qed.

Lemma fuel_free_argmax (qs : list Q) : fuel_free (argmax qs).
Proof. unfold fuel_free. by destruct qs. Qed.

Lemma fuel_free_forward `{Backend} (x : tensor) (q : _DQN.t) :
  fuel_free (_DQN.forward x q).
Proof. unfold fuel_free, _DQN.forward. repeat case_match; done. Qed.

Lemma fuel_free_sample `{Backend} (seed : nat) (n : Z) (mem : ReplayMemory.t) :
  fuel_free (ReplayMemory.sample seed n mem).
Proof. unfold fuel_free, ReplayMemory.sample. by repeat case_match. Qed.

Lemma in_time_ret {S A} (a : A) : in_time (mret a : M S A).
Proof. by intros s. Qed.

Lemma in_time_raise {S A} (e : exn) : e ≠ OutOfFuel → in_time (raise e : M S A).
Proof. intros He s. simpl. congruence. Qed.

Lemma in_time_gets {S A} (f : S → A) : in_time (gets f).
Proof. by intros s. Qed.

Lemma in_time_modify {S} (f : S → S) : in_time (modify f).
Proof. by intros s. Qed.

Lemma in_time_of_sum {S A} (r : exn + A) : fuel_free r → in_time (of_sum r : M S A).
Proof. intros Hr s. destruct r; simpl; [|done]. unfold fuel_free in Hr. congruence. Qed.

Lemma in_time_of_option {S A} (e : exn) (o : option A) :
  e ≠ OutOfFuel → in_time (of_option e o : M S A).
Proof. intros He s. destruct o; simpl; congruence. Qed.

Lemma in_time_bind {S A B} (m : M S A) (f : A → M S B) :
  in_time m → (∀ a, in_time (f a)) → in_time (m ≫= f).
Proof.
  intros Hm Hf s. specialize (Hm s). unfold mbind, M_bind.
  destruct (m s) as [[a|e] s']; [apply Hf|]. simpl in *. congruence.
Qed.

Lemma in_time_if {S A} (b : bool) (m1 m2 : M S A) :
  in_time m1 → in_time m2 → in_time (if b then m1 else m2).
Proof. by destruct b. Qed.

Lemma in_time_zoom {S T A} (proj : S → T) (inj : T → S → S) (m : M T A) :
  in_time m → in_time (zoom proj inj m).
Proof.
  intros Hm s. specialize (Hm (proj s)). unfold zoom.
  by destruct (m (proj s)) as [r t].
Qed.

Lemma in_time_draw {T} (n : nat) : in_time (draw n : M (T * sys) nat).
Proof. by intros [o g]. Qed.

Create HintDb in_time discriminated.
#[local] Hint Resolve in_time_ret in_time_gets in_time_modify in_time_bind
  in_time_if in_time_zoom in_time_draw in_time_of_sum in_time_of_option
  in_time_raise fuel_free_py_mod fuel_free_gather fuel_free_q_target_of
  fuel_free_argmax fuel_free_forward fuel_free_sample : in_time.
#[local] Hint Extern 1 (_ ≠ OutOfFuel) => discriminate : in_time.
#[local] Hint Extern 1 (in_time (set_self _)) => apply in_time_modify : in_time.
#[local] Hint Extern 1 (in_time self_) => apply in_time_gets : in_time.
#[local] Hint Extern 1 (in_time (emit _)) => apply in_time_modify : in_time.

Section in_time.
Context `{Backend}.

Lemma in_time_get_action (st : tensor) : in_time (DQN_Model.get_action st).
Proof.
  unfold DQN_Model.get_action, DQN_Model.get_Q_eval. eauto 10 with in_time.
Qed.

Lemma in_time_sample (n : Z) : in_time (DQN_Model.sample n).
Proof. unfold DQN_Model.sample. eauto 10 with in_time. Qed.

Lemma in_time_store_transition (x : transition) :
  in_time (DQN_Model.store_transition x).
Proof.
  unfold DQN_Model.store_transition, ReplayMemory.push.
  apply in_time_zoom. unfold get. eauto 10 with in_time.
Qed.

Lemma in_time_get_counter : in_time DQN_Model.get_counter.
Proof. unfold DQN_Model.get_counter. eauto with in_time. Qed.

Lemma in_time_learn (batch : list transition) : in_time (DQN_Model.learn batch).
Proof.
  unfold DQN_Model.learn, DQN_Model.get_Q_eval, DQN_Model.get_Q_target,
    DQN_Model.process_batch.
  apply in_time_bind; [eauto with in_time | intros self].
  apply in_time_bind; [eauto with in_time | intros ?].
  apply in_time_bind; [eauto with in_time | intros q_eval_net].
  apply in_time_bind; [eauto with in_time | intros ?].
  apply in_time_bind; [eauto with in_time | intros out].
  apply in_time_bind; [eauto with in_time | intros q_eval].
  apply in_time_bind; [eauto with in_time | intros q_target_net].
  apply in_time_bind; [eauto with in_time | intros out'].
  apply in_time_bind; [eauto with in_time | intros q_target].
  destruct (backward _ _ _ _) as [g_eval g_target].
  eauto 10 with in_time.
Qed.

Lemma in_time_on_model {A} (m : M (DQN_Model.t * sys) A) :
  in_time m → in_time (DQN_agent.on_model m).
Proof. intros Hm. by apply in_time_zoom. Qed.

Lemma in_time_act_train (obs : tensor) : in_time (DQN_agent.act_train obs).
Proof.
  unfold DQN_agent.act_train, DQN_agent.on_eps, DQN_agent.random_choice,
    _eps.get_eps.
  apply in_time_bind; [eauto with in_time | intros k].
  apply in_time_bind.
  { apply in_time_on_model, in_time_zoom. unfold get. eauto 10 with in_time. }
  intros e. apply in_time_if.
  - apply in_time_on_model, in_time_get_action.
  - apply in_time_bind; [eauto with in_time | intros self].
    case_decide; eauto 10 with in_time.
Qed.

End in_time.

(** ** A target period of 0 *)

Lemma hoare_exn_bind {S A B} (P : S → Prop) (m : M S A) (f : A → M S B)
    (R : A → S → Prop) (Q : B → S → Prop) (E : exn → S → Prop) :
  hoare_exn P m R E → (∀ a, hoare_exn (R a) (f a) Q E) →
  hoare_exn P (m ≫= f) Q E.
Proof.
  intros Hm Hf s Hs. specialize (Hm s Hs). unfold mbind, M_bind.
  destruct (m s) as [[a|e] s']; [by apply Hf | done].
Qed.

Lemma hoare_exn_keeps {S A} (I : S → Prop) (m : M S A) (E : exn → S → Prop) :
  keeps I m → in_time m → (∀ e s, e ≠ OutOfFuel → I s → E e s) →
  hoare_exn I m (λ _, I) E.
Proof.
  intros Hk Ht HE s Hs. specialize (Hk s Hs). specialize (Ht s).
  destruct (m s) as [[a|e] s']; [done|]. apply HE; [|done].
  simpl in Ht. congruence.
Qed.

Section zero_period.
Context `{Backend}.

(** With a target period of 0 the first step of the loop raises. *)
Lemma stuck_first_step (st0 : Z) (render : bool) (fuel : nat) (score : Q)
    (obs : tensor) :
  hoare_exn (stuck_at st0) (DQN_agent.train_loop render (S fuel) score obs)
    (λ _ _, False)
    (λ e s, e ≠ OutOfFuel ∧
            (DQN_agent.agent_step s.1 = st0 ∨
             DQN_agent.agent_step s.1 = (st0 + 1)%Z ∧ e = ZeroDivisionError)).
Proof.
  set (E := λ (e : exn) (s : DQN_agent.t * sys), e ≠ OutOfFuel ∧
            (DQN_agent.agent_step s.1 = st0 ∨
             DQN_agent.agent_step s.1 = (st0 + 1)%Z ∧ e = ZeroDivisionError)).
  assert (Hk : ∀ A (m : M (DQN_agent.t * sys) A),
            keeps (stuck_at st0) m → in_time m →
            hoare_exn (stuck_at st0) m (λ _, stuck_at st0) E).
  { intros A m Hm Ht. apply hoare_exn_keeps; [done..|].
    intros e s He [_ Hs]. split; [done | by left]. }
  assert (Hmodel : ∀ (a : DQN_agent.t) (g : sys) (mdl : DQN_Model.t) (g' : sys),
            stuck_at st0 (a, g) → stuck_at st0 (DQN_agent.set_model mdl a, g')).
  { by intros. }
  simpl.
  eapply hoare_exn_bind.
  { apply Hk.
    - apply keeps_if; [|apply keeps_ret]. apply keeps_modify. by intros [ag gg].
    - apply in_time_if; [apply in_time_modify | apply in_time_ret]. }
  intros ?. eapply hoare_exn_bind;
    [apply Hk; [apply keeps_act_train, Hmodel | apply in_time_act_train]
    | intros action].
  eapply hoare_exn_bind; [apply Hk; [apply keeps_gets | apply in_time_gets]
                         | intros self].
  destruct (env_step _ _) as [[[obs_ reward] done] env'].
  eapply hoare_exn_bind.
  { apply Hk; [apply keeps_modify; by intros [ag gg] | apply in_time_modify]. }
  intros ?. eapply hoare_exn_bind.
  { apply Hk; [apply keeps_on_model, Hmodel
              | apply in_time_on_model, in_time_store_transition]. }
  intros ?. eapply hoare_exn_bind.
  { apply Hk; [apply keeps_on_model, Hmodel
              | apply in_time_on_model, in_time_get_counter]. }
  intros counter. eapply hoare_exn_bind;
    [apply Hk; [apply keeps_gets | apply in_time_gets] | intros self'].
  eapply hoare_exn_bind.
  { apply Hk.
    - apply keeps_if; [|apply keeps_ret].
      apply keeps_bind; [apply keeps_of_sum | intros; apply keeps_ret].
    - apply in_time_if; [|apply in_time_ret].
      apply in_time_bind; [apply in_time_of_sum, fuel_free_py_mod
                          | intros; apply in_time_ret]. }
  intros go. eapply hoare_exn_bind.
  { apply Hk.
    - apply keeps_if; [|apply keeps_ret].
      apply keeps_bind; [apply keeps_on_model, Hmodel | intros].
      apply keeps_on_model, Hmodel.
    - apply in_time_if; [|apply in_time_ret].
      apply in_time_bind; [apply in_time_on_model, in_time_sample | intros].
      apply in_time_on_model, in_time_learn. }
  intros ?.
  apply hoare_exn_bind with
    (R := λ _ s, DQN_agent.target_update s.1 = 0%Z ∧
                 DQN_agent.agent_step s.1 = (st0 + 1)%Z).
  { intros [ag gg] [Ht Hs]. simpl in *. split; [done | lia]. }
  intros ?.
  apply hoare_exn_bind with
    (R := λ self s, DQN_agent.target_update self = 0%Z ∧
                    DQN_agent.agent_step s.1 = (st0 + 1)%Z).
  { intros s [Ht Hs]. simpl. done. }
  intros self'' s [Ht Hs].
  unfold mbind, M_bind, py_mod. rewrite decide_True by done. simpl.
  split; [done | by right].
Qed.

End zero_period.

(** X13: with [target_update = 0] a training episode never returns a score:
    its first step raises.  Unless action selection, the replay memory or
    [learn] raised before, the exception is the [ZeroDivisionError] of
    [agent_step % target_update], raised after the step counter was
    incremented; in no case has the counter advanced by more than one. *)
Theorem train_step_zero_target_update `{Backend} (render : bool) (fuel : nat)
    (a : DQN_agent.t) (g : sys) :
  DQN_agent.target_update a = 0%Z → (0 < fuel)%nat →
  ∃ e a' g',
    DQN_agent.train_step render fuel (a, g) = (Raise e, (a', g')) ∧
    e ≠ OutOfFuel ∧
    (DQN_agent.agent_step a' = DQN_agent.agent_step a ∨
     DQN_agent.agent_step a' = (DQN_agent.agent_step a + 1)%Z ∧
     e = ZeroDivisionError).
Proof.
  intros Ht Hfuel. destruct fuel as [|fuel]; [lia|].
  assert (hoare_exn (stuck_at (DQN_agent.agent_step a))
            (DQN_agent.train_step render (S fuel)) (λ _ _, False)
            (λ e s, e ≠ OutOfFuel ∧
               (DQN_agent.agent_step s.1 = DQN_agent.agent_step a ∨
                DQN_agent.agent_step s.1 = (DQN_agent.agent_step a + 1)%Z ∧
                e = ZeroDivisionError))) as Hstep.
  { unfold DQN_agent.train_step.
    eapply hoare_exn_bind with (R := λ _, stuck_at _).
    { intros s Hs. exact Hs. }
    intros self. destruct (env_reset _) as [obs env'].
    eapply hoare_exn_bind with (R := λ _, stuck_at _).
    { intros [ag gg] Hs. exact Hs. }
    intros ?. eapply hoare_exn_bind with (R := λ _, stuck_at _).
    { intros [ag gg] Hs. unfold DQN_agent.on_model, zoom. by mrun. }
    intros ?. eapply hoare_exn_bind; [apply stuck_first_step | by intros ? ? []]. }
  specialize (Hstep (a, g) (conj Ht eq_refl)).
  destruct (DQN_agent.train_step render (S fuel) (a, g)) as [[score|e] [a' g']];
    [done|].
  exists e, a', g'. split; [done|]. apply Hstep.
Qed.

Lemma train_step_zero_target_update_witness :
  ∃ e a' g',
    DQN_agent.train_step false 3 (toy_agent_with 2 0 1, Sys 0 ∅ [])
      = (Raise e, (a', g')) ∧
    e ≠ OutOfFuel ∧
    (DQN_agent.agent_step a' = 0%Z ∨
     DQN_agent.agent_step a' = 1%Z ∧ e = ZeroDivisionError).
Proof.
  apply (train_step_zero_target_update false 3 (toy_agent_with 2 0 1) (Sys 0 ∅ []));
    [reflexivity | lia].
Defined.

(** ** A learn frequency of 0 *)

Section zero_frequency.
Context `{Backend}.

Lemma never_learning_on_model {A} b tr (m : M (DQN_Model.t * sys) A) :
  quiet m → keeps (never_learning b tr) (DQN_agent.on_model m).
Proof.
  intros Hm [a g] (Hl & Hb & Htr). simpl in *.
  destruct (Hm (DQN_agent.model a) g) as [Ht _].
  unfold DQN_agent.on_model, zoom.
  destruct (m _) as [[x|e] [mdl g']]; unfold never_learning; simpl in *;
    by rewrite Ht.
Qed.

Lemma below_gate_on_model {A} b tr (m : M (DQN_Model.t * sys) A) :
  quiet m → keeps (below_gate b tr) (DQN_agent.on_model m).
Proof.
  intros Hm [a g] (Hc & Hl & Hb & Htr). simpl in *.
  destruct (Hm (DQN_agent.model a) g) as [Ht Hr].
  unfold DQN_agent.on_model, zoom.
  destruct (m _) as [[x|e] [mdl g']]; unfold below_gate, never_learning;
    simpl in *; by rewrite Ht, Hr.
Qed.

Lemma never_learning_store_transition b tr (x : transition) :
  keeps (never_learning b tr) (DQN_agent.on_model (DQN_Model.store_transition x)).
Proof.
  intros [a g] (Hl & Hb & Htr). simpl in *.
  unfold DQN_agent.on_model, DQN_Model.store_transition, ReplayMemory.push.
  mrun; done.
Qed.

Lemma never_learning_draw b tr (n : nat) : keeps (never_learning b tr) (draw n).
Proof. intros [a g] Hs. done. Qed.

Lemma never_learning_act_train b tr (obs : tensor) :
  keeps (never_learning b tr) (DQN_agent.act_train obs).
Proof.
  unfold DQN_agent.act_train, DQN_agent.on_eps, DQN_agent.random_choice.
  apply keeps_bind; [apply never_learning_draw | intros k].
  apply keeps_bind; [apply never_learning_on_model, quiet_eps | intros e].
  apply keeps_if; [apply never_learning_on_model, quiet_get_action|].
  apply keeps_bind; [apply keeps_gets | intros self].
  destruct (decide _); [apply keeps_raise|].
  apply keeps_bind; [apply never_learning_draw | intros; apply keeps_ret].
Qed.

Lemma never_learning_train_loop b tr (render : bool) (fuel : nat) (score : Q)
    (obs : tensor) :
  hoare (never_learning b tr) (DQN_agent.train_loop render fuel score obs)
        (λ _, below_gate b tr) (never_learning b tr).
Proof.
  assert (Hk : ∀ A (m : M (DQN_agent.t * sys) A), keeps (below_gate b tr) m →
            hoare (below_gate b tr) m (λ _, below_gate b tr) (never_learning b tr)).
  { intros A m Hm. eapply hoare_conseq; [exact Hm | done | done | by intros s [_ Hs]]. }
  revert score obs. induction fuel as [|fuel IH]; intros score obs; simpl.
  { by apply hoare_raise. }
  eapply hoare_bind.
  { apply keeps_if; [|apply keeps_ret]. apply keeps_modify. by intros [ag gg]. }
  intros ?. eapply hoare_bind; [apply never_learning_act_train | intros action].
  eapply hoare_bind; [apply keeps_gets | intros self].
  destruct (env_step _ _) as [[[obs_ reward] done] env'].
  eapply hoare_bind; [apply keeps_modify; by intros [ag gg] | intros ?].
  eapply hoare_bind; [apply never_learning_store_transition | intros ?].
  (* the counter read here is the one the gate tests *)
  apply hoare_bind with
    (R := λ c s, ReplayMemory.counter
                   (DQN_Model.replay_memory (DQN_agent.model s.1)) = c ∧
                 never_learning b tr s).
  { intros [ag gg] Hs. unfold DQN_agent.on_model, DQN_Model.get_counter.
    mrun. split; [done|]. by destruct ag. }
  intros counter.
  apply hoare_bind with
    (R := λ self s, (DQN_agent.learn_frequency self = 0%Z ∧
                     DQN_agent.batch_size self = b) ∧
                    (ReplayMemory.counter
                       (DQN_Model.replay_memory (DQN_agent.model s.1)) = counter ∧
                     never_learning b tr s)).
  { apply hoare_gets. intros s [Hc Hs]. split; [|done]. split; apply Hs. }
  intros self'. apply hoare_pure. intros [Hlf Hbs]. rewrite Hlf, Hbs.
  apply hoare_bind with (R := λ go s, go = false ∧ below_gate b tr s).
  { destruct (bool_decide _) eqn:Hgt.
    - unfold py_mod. rewrite decide_True by done. apply hoare_raise. by intros s [_ Hs].
    - apply bool_decide_eq_false in Hgt. apply hoare_ret.
      intros s [Hc Hs]. split; [done|]. split; [lia | done]. }
  intros go. apply hoare_pure. intros ->.
  eapply hoare_bind; [apply Hk, keeps_ret | intros ?].
  eapply hoare_bind.
  { apply Hk, keeps_modify. by intros [ag gg]. }
  intros ?. eapply hoare_bind; [apply Hk, keeps_gets | intros self''].
  eapply hoare_bind; [apply Hk, keeps_of_sum | intros r].
  eapply hoare_bind.
  { apply Hk, keeps_if; [|apply keeps_ret].
    apply below_gate_on_model, quiet_replace_target_network. }
  intros ?. destruct done.
  - by apply hoare_ret.
  - eapply hoare_conseq; [apply IH | by intros s [_ Hs] | done | done].
Qed.

Lemma never_learning_train_step b tr (render : bool) (fuel : nat) :
  hoare (never_learning b tr) (DQN_agent.train_step render fuel)
        (λ _, below_gate b tr) (never_learning b tr).
Proof.
  unfold DQN_agent.train_step.
  eapply hoare_bind; [apply keeps_gets | intros self].
  destruct (env_reset _) as [obs env'].
  eapply hoare_bind; [apply keeps_modify; by intros [ag gg] | intros ?].
  eapply hoare_bind;
    [apply never_learning_on_model, quiet_set_done | intros ?].
  eapply hoare_bind; [apply never_learning_train_loop | intros score].
  eapply hoare_bind.
  - eapply hoare_conseq;
      [apply (below_gate_on_model b tr), quiet_set_done | done | done
      | by intros s [_ Hs]].
  - intros ?. by apply hoare_ret.
Qed.

End zero_frequency.

(** X14: with [learn_frequency = 0] a training episode never calls [learn],
    and it returns a score only if the write counter of the replay memory
    never exceeded [batch_size]: the gate raises [ZeroDivisionError] as soon
    as its first conjunct holds. *)
Theorem train_step_zero_learn_frequency `{Backend} (render : bool) (fuel : nat)
    (a : DQN_agent.t) (g : sys) :
  DQN_agent.learn_frequency a = 0%Z →
  trace (DQN_agent.train_step render fuel (a, g)).2.2 = trace g ∧
  ∀ score s', DQN_agent.train_step render fuel (a, g) = (Ok score, s') →
    (ReplayMemory.counter (DQN_Model.replay_memory (DQN_agent.model s'.1))
       ≤ DQN_agent.batch_size a)%Z.
Proof.
  intros Hlf.
  pose proof (never_learning_train_step (DQN_agent.batch_size a) (trace g)
                render fuel (a, g)) as Hstep.
  destruct (DQN_agent.train_step render fuel (a, g)) as [[score|e] s'].
  - destruct Hstep as (Hc & _ & _ & Htr); [done|].
    split; [done|]. by intros ? ? [= <- <-].
  - destruct Hstep as (_ & _ & Htr); [done|]. split; [done|]. discriminate.
Qed.


Lemma train_step_zero_learn_frequency_witness :
  let s := (toy_agent_with 5 4 0, Sys 0 ∅ []) in
  trace (DQN_agent.train_step false 3 s).2.2 = [] ∧
  ∀ score s', DQN_agent.train_step false 3 s = (Ok score, s') →
    (ReplayMemory.counter (DQN_Model.replay_memory (DQN_agent.model s'.1)) ≤ 5)%Z.
Proof.
  intros s.
  apply (train_step_zero_learn_frequency false 3 (toy_agent_with 5 4 0)
           (Sys 0 ∅ [])).
  reflexivity.
Defined.

(** ** Steps, decays and stored transitions *)

Lemma decayed_succ (k : nat) (e : _eps.t) :
  decayed (S k) e = (_eps.get_eps (decayed k e)).2.
Proof.
  unfold decayed. revert e. induction k as [|k IH]; intros e.
  - reflexivity.
  - rewrite get_eps_n_succ. cbv zeta.
    set (e1 := _eps.mk _ _ _). specialize (IH e1).
    rewrite (get_eps_n_succ k e). cbv zeta. fold e1.
    destruct (_eps.get_eps_n (S k) e1) as [[rs|x] s1] eqn:E1;
      destruct (_eps.get_eps_n k e1) as [[rs'|x'] s2] eqn:E2; simpl in *; done.
Qed.

Section lockstep.
Context `{Backend}.

Lemma still_get_action (st : tensor) : still (DQN_Model.get_action st).
Proof. unfold DQN_Model.get_action, DQN_Model.get_Q_eval. still_run. Qed.

Lemma still_sample (n : Z) : still (DQN_Model.sample n).
Proof. unfold DQN_Model.sample. still_run. Qed.

Lemma still_replace_target_network : still DQN_Model.replace_target_network.
Proof.
  unfold DQN_Model.replace_target_network, DQN_Model.get_Q_eval,
    DQN_Model.get_Q_target.
  still_run.
Qed.

Lemma still_set_done (b : bool) : still (set_self (DQN_Model.set_done b)).
Proof. still_run. Qed.

Lemma still_get_counter : still DQN_Model.get_counter.
Proof. unfold DQN_Model.get_counter. still_run. Qed.

Variable F : gmap string (gmap string tensor).
Variable tr0 : list event.
Variable a0 : DQN_agent.t.

Lemma walking_on_model {A} ka kb kc (m : M (DQN_Model.t * sys) A) :
  still m → keeps (walking F tr0 a0 ka kb kc) (DQN_agent.on_model m).
Proof.
  intros Hm [a g] [[Hf Htr] (Ha & He & Hc)]. simpl in *.
  destruct (Hm (DQN_agent.model a) g) as (He' & Hr' & Hf' & Ht').
  unfold DQN_agent.on_model, zoom.
  destruct (m _) as [[x|e] [mdl g']]; unfold walking, only_learns, advanced;
    simpl in *; by rewrite He', Hr', Hf', Ht'.
Qed.

Lemma walking_weaken ka kb kc s : walking F tr0 a0 ka kb kc s → only_learns F tr0 s.
Proof. by intros [? _]. Qed.

(** A computation that keeps the whole assertion, as a step of the walk. *)
Lemma walk ka kb kc {A} (m : M (DQN_agent.t * sys) A) :
  keeps (walking F tr0 a0 ka kb kc) m →
  hoare (walking F tr0 a0 ka kb kc) m (λ _, walking F tr0 a0 ka kb kc)
        (only_learns F tr0).
Proof.
  intros Hm. eapply hoare_conseq; [exact Hm | done | done | apply walking_weaken].
Qed.

Lemma walking_draw ka kb kc (n : nat) : keeps (walking F tr0 a0 ka kb kc) (draw n).
Proof. intros [a g] Hs. done. Qed.

Lemma walking_learn ka kb kc (batch : list transition) :
  keeps (walking F tr0 a0 ka kb kc) (DQN_agent.learn batch).
Proof.
  intros [a g] [[Hf (new & Htr & Hnew)] (Ha & He & Hc)]. simpl in *.
  destruct (learn_effect batch (DQN_agent.model a) g)
    as (r & m' & g' & E & Hr' & He' & _ & _ & Hf' & Ht').
  unfold DQN_agent.learn, DQN_agent.on_model, zoom. rewrite E.
  assert (walking F tr0 a0 ka kb kc (DQN_agent.set_model m' a, g')) as Hw.
  { split; [split|]; simpl.
    - by rewrite Hf'.
    - exists (EvLearn (DQN_Model.replay_memory (DQN_agent.model a)) batch :: new).
      rewrite Ht', Htr. split; [done|]. by constructor.
    - unfold advanced. simpl. by rewrite Hr', He'. }
  by destruct r.
Qed.

Lemma walking_get_eps ka kb kc :
  hoare (walking F tr0 a0 ka kb kc) (DQN_agent.on_eps _eps.get_eps)
        (λ _, walking F tr0 a0 ka (S kb) kc) (only_learns F tr0).
Proof.
  intros [a g] [Hl (Ha & He & Hc)]. simpl in *.
  unfold DQN_agent.on_eps, DQN_agent.on_model, zoom. simpl.
  split; [done|]. unfold advanced. simpl.
  split; [done|]. split; [|done].
  rewrite decayed_succ, <- He. reflexivity.
Qed.

Lemma walking_store_transition ka kb kc (x : transition) :
  hoare (walking F tr0 a0 ka kb kc)
        (DQN_agent.on_model (DQN_Model.store_transition x))
        (λ _, walking F tr0 a0 ka kb (S kc)) (only_learns F tr0).
Proof.
  intros [a g] [Hl (Ha & He & Hc)]. simpl in *.
  unfold DQN_agent.on_model, DQN_Model.store_transition, ReplayMemory.push.
  mrun; [|done]. split; [done|]. unfold advanced. simpl.
  split; [done|]. split; [done|]. lia.
Qed.

Lemma walking_act_train ka kb kc (obs : tensor) :
  hoare (walking F tr0 a0 ka kb kc) (DQN_agent.act_train obs)
        (λ _, walking F tr0 a0 ka (S kb) kc) (only_learns F tr0).
Proof.
  unfold DQN_agent.act_train, DQN_agent.random_choice.
  eapply hoare_bind; [apply walk, walking_draw | intros k].
  eapply hoare_bind; [apply walking_get_eps | intros e].
  destruct (Qgtb _ _).
  - apply walk, walking_on_model, still_get_action.
  - eapply hoare_bind; [apply walk, keeps_gets | intros self].
    destruct (decide _); [apply hoare_raise; eapply walking_weaken|].
    eapply hoare_bind; [apply walk, walking_draw | intros ?].
    by apply hoare_ret.
Qed.

Lemma walking_train_loop (render : bool) (fuel : nat) (k : nat) (score : Q)
    (obs : tensor) :
  hoare (walking F tr0 a0 k k k) (DQN_agent.train_loop render fuel score obs)
        (λ _ s, ∃ k', (k < k')%nat ∧ walking F tr0 a0 k' k' k' s)
        (only_learns F tr0).
Proof.
  revert k score obs. induction fuel as [|fuel IH]; intros k score obs; simpl.
  { apply hoare_raise; eapply walking_weaken. }
  eapply hoare_bind.
  { apply walk, keeps_if; [|apply keeps_ret]. apply keeps_modify. by intros [ag gg]. }
  intros ?. eapply hoare_bind; [apply walking_act_train | intros action].
  eapply hoare_bind; [apply walk, keeps_gets | intros self].
  destruct (env_step _ _) as [[[obs_ reward] done] env'].
  eapply hoare_bind; [apply walk, keeps_modify; by intros [ag gg] | intros ?].
  eapply hoare_bind; [apply walking_store_transition | intros ?].
  eapply hoare_bind;
    [apply walk, walking_on_model, still_get_counter | intros counter].
  eapply hoare_bind; [apply walk, keeps_gets | intros self'].
  eapply hoare_bind.
  { apply walk, keeps_if; [|apply keeps_ret].
    apply keeps_bind; [apply keeps_of_sum | intros; apply keeps_ret]. }
  intros go. eapply hoare_bind.
  { apply walk, keeps_if; [|apply keeps_ret].
    apply keeps_bind; [apply walking_on_model, still_sample | intros batch].
    apply walking_learn. }
  intros ?.
  apply hoare_bind with (R := λ _, walking F tr0 a0 (S k) (S k) (S k)).
  { apply hoare_modify. intros [ag gg] [Hl (Ha & He & Hc)]. simpl in *.
    split; [done|]. unfold advanced. simpl. split; [lia | done]. }
  intros ?. eapply hoare_bind; [apply walk, keeps_gets | intros self''].
  eapply hoare_bind; [apply walk, keeps_of_sum | intros r].
  eapply hoare_bind.
  { apply walk, keeps_if; [|apply keeps_ret].
    apply walking_on_model, still_replace_target_network. }
  intros ?. destruct done.
  - apply hoare_ret. intros s Hs. exists (S k). split; [lia | done].
  - eapply hoare_conseq; [apply (IH (S k)) | done | | done].
    intros ? s (k' & Hk' & Hs). exists k'. split; [lia | done].
Qed.

Lemma walking_train_step (render : bool) (fuel : nat) :
  hoare (walking F tr0 a0 0 0 0) (DQN_agent.train_step render fuel)
        (λ _ s, ∃ k', (0 < k')%nat ∧ walking F tr0 a0 k' k' k' s)
        (only_learns F tr0).
Proof.
  unfold DQN_agent.train_step.
  eapply hoare_bind; [apply walk, keeps_gets | intros self].
  destruct (env_reset _) as [obs env'].
  eapply hoare_bind; [apply walk, keeps_modify; by intros [ag gg] | intros ?].
  eapply hoare_bind; [apply walk, walking_on_model, still_set_done | intros ?].
  eapply hoare_bind; [apply walking_train_loop | intros score].
  eapply hoare_bind with
    (R := λ _ s, ∃ k', (0 < k')%nat ∧ walking F tr0 a0 k' k' k' s).
  - intros s (k' & Hk' & Hs).
    pose proof (walking_on_model k' k' k' _ (still_set_done true) s Hs) as Hd.
    destruct (DQN_agent.on_model _ s) as [[?|?] s'];
      [eauto | by eapply walking_weaken].
  - intros ?. by apply hoare_ret.
Qed.

End lockstep.


Lemma walking_start `{Backend} (a : DQN_agent.t) (g : sys) :
  walking (fs g) (trace g) a 0 0 0 (a, g).
Proof.
  split; [split; [done | by exists []]|]. unfold advanced. simpl.
  split; [lia|]. split; [done | lia].
Qed.

(** X15: a training episode, whether it returns or raises, writes no
    checkpoint: the files are as before, and everything it adds to the
    trace is a call of [learn]. *)
Theorem train_step_never_saves `{Backend} (render : bool) (fuel : nat)
    (a : DQN_agent.t) (g : sys) :
  fs (DQN_agent.train_step render fuel (a, g)).2.2 = fs g ∧
  ∃ new,
    trace (DQN_agent.train_step render fuel (a, g)).2.2 = new ++ trace g ∧
    ∀ ev, ev ∈ new → ∃ mem batch, ev = EvLearn mem batch.
Proof.
  assert (only_learns (fs g) (trace g)
            (DQN_agent.train_step render fuel (a, g)).2) as [Hf (new & Htr & Hnew)].
  { pose proof (walking_train_step (fs g) (trace g) a render fuel (a, g)
                  (walking_start a g)) as Hw.
    destruct (DQN_agent.train_step render fuel (a, g)) as [[score|e] s'].
    - by destruct Hw as (k & _ & Hl & _).
    - exact Hw. }
  split; [done|]. exists new. split; [done|].
  intros ev Hin. pose proof (proj1 (Forall_forall _ _) Hnew ev Hin) as Hev.
  destruct ev; [eauto | done].
Qed.

(** X16: an episode that returns has made [k >= 1] steps; the step counter
    has advanced by [k] and the scheduler is where [k] calls of [get_eps]
    take it: epsilon decays once per environment step, whether the action
    was greedy or random. *)
Theorem train_step_decays_once_per_step `{Backend} (render : bool) (fuel : nat)
    (a a' : DQN_agent.t) (g g' : sys) (score : Q) :
  DQN_agent.train_step render fuel (a, g) = (Ok score, (a', g')) →
  ∃ k : nat,
    (0 < k)%nat ∧
    DQN_agent.agent_step a' = (DQN_agent.agent_step a + Z.of_nat k)%Z ∧
    DQN_Model.eps (DQN_agent.model a') =
      (_eps.get_eps_n k (DQN_Model.eps (DQN_agent.model a))).2.
Proof.
  intros Hrun.
  pose proof (walking_train_step (fs g) (trace g) a render fuel (a, g)
                (walking_start a g)) as Hw.
  rewrite Hrun in Hw.
  destruct Hw as (k & Hk & _ & Ha & He & _).
  exists k. done.
Qed.

Lemma toy_train_step_run :
  let s := (toy_agent_with_networks, Sys 0 ∅ []) in
  DQN_agent.train_step false 3 s =
    (Ok 3, ((DQN_agent.train_step false 3 s).2.1,
            (DQN_agent.train_step false 3 s).2.2)).
Proof. vm_compute. reflexivity. Qed.

Lemma train_step_decays_once_per_step_witness :
  let s := (toy_agent_with_networks, Sys 0 ∅ []) in
  let a' := (DQN_agent.train_step false 3 s).2.1 in
  ∃ k : nat,
    (0 < k)%nat ∧
    DQN_agent.agent_step a' = (0 + Z.of_nat k)%Z ∧
    DQN_Model.eps (DQN_agent.model a') =
      (_eps.get_eps_n k (DQN_Model.eps toy_model_with_networks)).2.
Proof.
  intros s a'.
  apply (train_step_decays_once_per_step false 3 toy_agent_with_networks a'
           (Sys 0 ∅ []) (DQN_agent.train_step false 3 s).2.2 3).
  exact toy_train_step_run.
Defined.

(** X17: over an episode that returns, the write counter of the replay
    memory and the agent's step counter advance by the same amount, at
    least one: each environment step stores exactly one transition. *)
Theorem train_step_stores_once_per_step `{Backend} (render : bool) (fuel : nat)
    (a a' : DQN_agent.t) (g g' : sys) (score : Q) :
  DQN_agent.train_step render fuel (a, g) = (Ok score, (a', g')) →
  let counter x := ReplayMemory.counter (DQN_Model.replay_memory (DQN_agent.model x)) in
  (counter a' - counter a = DQN_agent.agent_step a' - DQN_agent.agent_step a)%Z ∧
  (counter a < counter a')%Z.
Proof.
  intros Hrun counter.
  pose proof (walking_train_step (fs g) (trace g) a render fuel (a, g)
                (walking_start a g)) as Hw.
  rewrite Hrun in Hw.
  destruct Hw as (k & Hk & _ & Ha & _ & Hc).
  simpl in Ha, Hc. unfold counter. lia.
Qed.

Lemma train_step_stores_once_per_step_witness :
  let s := (toy_agent_with_networks, Sys 0 ∅ []) in
  let a' := (DQN_agent.train_step false 3 s).2.1 in
  let counter x :=
    ReplayMemory.counter (DQN_Model.replay_memory (DQN_agent.model x)) in
  (counter a' - counter toy_agent_with_networks =
     DQN_agent.agent_step a' - DQN_agent.agent_step toy_agent_with_networks)%Z ∧
  (counter toy_agent_with_networks < counter a')%Z.
Proof.
  intros s a'.
  apply (train_step_stores_once_per_step false 3 toy_agent_with_networks a'
           (Sys 0 ∅ []) (DQN_agent.train_step false 3 s).2.2 3).
  exact toy_train_step_run.
Defined.

(** ** Environment specs *)

(** X18: on an environment whose observations have fewer than two
    dimensions, [envs.get_env_specs] raises [IndexError] (its bsuite branch
    reads [obs_shape[0] * obs_shape[1]]), while the agent's own
    [get_env_specs] returns the specs of a one-frame float32 observation. *)
Theorem get_env_specs_flat_observation (env : gym_env) (stack_frames : Z) :
  (length (observation_space_shape env) < 2)%nat →
  envs.get_env_specs env stack_frames = inl (Builtin IndexError) ∧
  DQN_agent_env.get_env_specs env stack_frames =
    inr (observation_space_shape env, float32, 1%Z, action_space_n env).
Proof.
  intros Hlen. unfold envs.get_env_specs, DQN_agent_env.get_env_specs.
  rewrite !decide_False by lia.
  destruct (observation_space_shape env) as [|d0 [|d1 l]]; simpl in *; [done|done|lia].
Qed.

Lemma get_env_specs_flat_observation_witness :
  envs.get_env_specs toy_vector_env 4 = inl (Builtin IndexError) ∧
  DQN_agent_env.get_env_specs toy_vector_env 4 = inr ([4%Z], float32, 1%Z, 2%Z).
Proof.
  apply (get_env_specs_flat_observation toy_vector_env 4). simpl. lia.
Defined.

(** X19: whenever [envs.get_env_specs] returns, the agent's [get_env_specs]
    returns the same shape, element type, observation length and number of
    actions; the element type is the one [DQN_Model.__init__] derives from
    the shape; the shape has at least two dimensions, and [in_dims] is the
    channel count of a three-dimensional shape (then [obs_len] is
    [stack_frames], which exceeds 1) and the product of the first two
    dimensions otherwise (then [obs_len] is 1). *)
Theorem get_env_specs_agree (env : gym_env) (stack_frames : Z) (sp : envs.env_specs) :
  envs.get_env_specs env stack_frames = inr sp →
  DQN_agent_env.get_env_specs env stack_frames =
    inr (envs.obs_shape sp, envs.obs_dtype sp, envs.obs_len sp, envs.n_actions sp) ∧
  envs.obs_shape sp = observation_space_shape env ∧
  envs.obs_dtype sp = model_obs_dtype (envs.obs_shape sp) ∧
  (2 ≤ length (envs.obs_shape sp))%nat ∧
  match envs.obs_shape sp with
  | [_; _; c] => envs.in_dims sp = c ∧ envs.obs_len sp = stack_frames ∧ (stack_frames > 1)%Z
  | d0 :: d1 :: _ => envs.in_dims sp = (d0 * d1)%Z ∧ envs.obs_len sp = 1%Z
  | _ => False
  end.
Proof.
  unfold envs.get_env_specs, DQN_agent_env.get_env_specs, model_obs_dtype.
  destruct (observation_space_shape env) as [|d0 [|d1 [|d2 [|d3 l]]]] eqn:Hs;
    simpl; repeat case_decide; try done; try lia;
    intros [= <-]; simpl; rewrite ?decide_True, ?decide_False by (simpl; lia);
    repeat split; try done; simpl; lia.
Qed.


Lemma get_env_specs_agree_witness :
  let sp := envs.mk [84; 84; 4]%Z uint8 4 6 4 in
  DQN_agent_env.get_env_specs toy_image_env 4 =
    inr (envs.obs_shape sp, envs.obs_dtype sp, envs.obs_len sp, envs.n_actions sp) ∧
  envs.obs_shape sp = observation_space_shape toy_image_env ∧
  envs.obs_dtype sp = model_obs_dtype (envs.obs_shape sp) ∧
  (2 ≤ length (envs.obs_shape sp))%nat ∧
  (envs.in_dims sp = 4%Z ∧ envs.obs_len sp = 4%Z ∧ (4 > 1)%Z).
Proof.
  intros sp. apply (get_env_specs_agree toy_image_env 4 sp). reflexivity.
Defined.
